(** * Flood-forecast data-entry form: import, validation and submission

    A shallow embedding of [src/App.tsx].  The component keeps its whole
    state in React hooks; every handler is modelled as a computation over
    that state which may also throw, as JavaScript code does.  The parts of
    the JavaScript run time the handlers rely on ([String], [Object.keys],
    the [in] operator, property assignment, [split], [pop], [toLowerCase])
    are modelled next to them, following ECMAScript. *)

From Stdlib Require Import Ascii DecimalString.
From stdpp Require Import base option strings list gmap.

Local Open Scope string_scope.
Local Set Warnings "-register-all,-clear-no-such-hyp".

(** ** Completions: a JavaScript evaluation returns or throws *)

Inductive JsError := SyntaxError | TypeError.

Inductive Completion (A : Type) : Type :=
  | Normal (a : A)
  | Throw (e : JsError).
Arguments Normal {A} a.
Arguments Throw {A} e.

#[export] Instance Completion_ret : MRet Completion := @Normal.
#[export] Instance Completion_bind : MBind Completion :=
  fun A B f c => match c with Normal a => f a | Throw e => Throw e end.

Definition returns {A} (c : Completion A) : Prop := exists a, c = Normal a.
Definition throws {A} (c : Completion A) : Prop := exists e, c = Throw e.

(** ** Strings

    Strings are sequences of 8-bit code units.  [toLowerCase] maps the
    letters A-Z to a-z and leaves every other unit alone. *)

Definition toLowerCase_unit (c : ascii) : ascii :=
  let n := nat_of_ascii c in
  if (65 <=? n)%nat && (n <=? 90)%nat then ascii_of_nat (n + 32) else c.

Fixpoint toLowerCase (s : string) : string :=
  match s with
  | EmptyString => EmptyString
  | String c rest => String (toLowerCase_unit c) (toLowerCase rest)
  end.

(** [s.split(sep)] for a one-character separator: the segments between the
    occurrences of [sep]; never the empty array. *)
Fixpoint split (sep : ascii) (s : string) : list string :=
  match s with
  | EmptyString => [EmptyString]
  | String c rest =>
      if Ascii.eqb c sep then EmptyString :: split sep rest
      else match split sep rest with
           | seg :: segs => String c seg :: segs
           | [] => [String c EmptyString]
           end
  end.

(** [a.pop()]: the last element, [undefined] on the empty array. *)
Definition pop (a : list string) : option string := last a.

(** [field.replace(/_/g, ' ')] *)
Fixpoint replace_underscores (s : string) : string :=
  match s with
  | EmptyString => EmptyString
  | String c rest =>
      String (if Ascii.eqb c "_"%char then " "%char else c) (replace_underscores rest)
  end.

(** [Array.prototype.join]'s loop, over the string forms the elements have. *)
Definition join_with {A} (f : A -> Completion string) : list A -> Completion string :=
  fix go (l : list A) : Completion string :=
    match l with
    | [] => Normal ""
    | [x] => f x
    | x :: rest => s ← f x; r ← go rest; Normal (s +:+ "," +:+ r)
    end.

(** The canonical numeric string of an array index. *)
Definition index_key (i : nat) : string := NilZero.string_of_uint (Nat.to_uint i).

Section JsValues.

(** JavaScript numbers are IEEE doubles; the development is parametric in
    them and in [Number::toString]. *)
Variable number : Type.
Variable Number_toString : number -> string.

(** ** Values: what [JSON.parse] and Papa Parse can deliver *)

Inductive JsValue : Type :=
  | JUndefined
  | JNull
  | JBool (b : bool)
  | JNumber (n : number)
  | JString (s : string)
  | JArray (elements : list JsValue)
  | JObject (properties : list (string * JsValue)).

(** [o[key]] on own properties; the first binding of a name is the property. *)
Fixpoint assoc (key : string) (properties : list (string * JsValue)) : option JsValue :=
  match properties with
  | [] => None
  | (k, v) :: rest => if String.eqb k key then Some v else assoc key rest
  end.

Definition own_property_names (properties : list (string * JsValue)) : list string :=
  properties.*1.

(** [String(v)], that is ToString: an array is joined with commas, its
    [undefined] and [null] elements contributing the empty string; an
    ordinary object is sent through OrdinaryToPrimitive, which calls
    [toString] then [valueOf] when they are callable.  An object built by
    [JSON.parse] holds no function, so an own [toString] property hides
    [Object.prototype.toString] and the conversion throws a TypeError
    ([Object.prototype.valueOf] only returns the object itself). *)
Fixpoint ToString (v : JsValue) : Completion string :=
  match v with
  | JUndefined => Normal "undefined"
  | JNull => Normal "null"
  | JBool b => Normal (if b then "true" else "false")
  | JNumber n => Normal (Number_toString n)
  | JString s => Normal s
  | JArray elements =>
      join_with (fun x => match x with
                          | JUndefined | JNull => Normal ""
                          | _ => ToString x
                          end) elements
  | JObject properties =>
      if bool_decide ("toString" ∈ own_property_names properties)
      then Throw TypeError
      else Normal "[object Object]"
  end.

(** [Object.keys(v)]: ToObject throws on [undefined] and [null]; a boolean
    or number wrapper has no own enumerable property; a string and an array
    expose their indices; an object lists its properties, held here in
    enumeration order. *)
Definition Object_keys (v : JsValue) : Completion (list string) :=
  match v with
  | JUndefined | JNull => Throw TypeError
  | JBool _ | JNumber _ => Normal []
  | JString s => Normal (index_key <$> seq 0 (String.length s))
  | JArray elements => Normal (index_key <$> seq 0 (length elements))
  | JObject properties => Normal (own_property_names properties)
  end.

(** [v[key]] for [key] one of [Object.keys(v)]. *)
Definition get (v : JsValue) (key : string) : JsValue :=
  match v with
  | JObject properties => default JUndefined (assoc key properties)
  | JArray elements =>
      default JUndefined
        (head (omap (fun '(i, x) => if String.eqb (index_key i) key then Some x else None)
                    (imap pair elements)))
  | JString s =>
      default JUndefined
        (head (omap (fun i => if String.eqb (index_key i) key
                              then Some (JString (String.substring i 1 s)) else None)
                    (seq 0 (String.length s))))
  | _ => JUndefined
  end.

End JsValues.

Arguments JUndefined {number}.
Arguments JNull {number}.
Arguments JBool {number} b.
Arguments JNumber {number} n.
Arguments JString {number} s.
Arguments JArray {number} elements.
Arguments JObject {number} properties.
Arguments assoc {number} key properties.
Arguments own_property_names {number} properties.
Arguments ToString {number} Number_toString v.
Arguments Object_keys {number} v.
Arguments get {number} v key.

(** ** The form data object *)

(** [FormData] objects are ordinary objects with string-valued own
    properties: a finite map from property names to strings, with
    [Object.prototype] as prototype. *)
Abbreviation FormData := (gmap string string).

Definition initialEntries : list (string * string) :=
  [ ("rainfall_intensity", ""); ("rainfall_accumulation", ""); ("temperature", "");
    ("humidity", ""); ("wind_speed", "");
    ("river_level", ""); ("river_discharge", ""); ("soil_moisture", "");
    ("groundwater_level", "");
    ("elevation", ""); ("slope", ""); ("land_use", ""); ("soil_type", "");
    ("sat_rainfall", ""); ("sat_soil_moisture", ""); ("drone_image", "");
    ("iot_river_level", ""); ("iot_river_flow", ""); ("iot_temp", "");
    ("iot_humidity", ""); ("iot_wind", "");
    ("past_flood", "no"); ("flood_severity", ""); ("flood_duration", "") ].

Definition initialData : FormData := list_to_map initialEntries.

(** The schema: the keys of [initialData]. *)
Definition schema_keys : list string := initialEntries.*1.

(** The string-named properties of [Object.prototype] (ECMAScript 20.1.3
    and Annex B.2.2), which every object literal inherits. *)
Definition Object_prototype_names : list string :=
  [ "constructor"; "hasOwnProperty"; "isPrototypeOf"; "propertyIsEnumerable";
    "toLocaleString"; "toString"; "valueOf"; "__proto__";
    "__defineGetter__"; "__defineSetter__"; "__lookupGetter__"; "__lookupSetter__" ].

(** [key in o]: HasProperty looks at the own properties, then up the
    prototype chain. *)
Definition js_in (key : string) (o : FormData) : bool :=
  bool_decide (is_Some (o !! key)) || bool_decide (key ∈ Object_prototype_names).

(** [o[key] = value] for a string [value]: the inherited [__proto__] is an
    accessor whose setter ignores a value that is neither an object nor
    [null]; every other name, inherited as a writable data property or not
    at all, becomes an own property. *)
Definition js_set (o : FormData) (key value : string) : FormData :=
  if String.eqb key "__proto__" && bool_decide (o !! key = None) then o
  else <[key := value]> o.

(** ** Uploaded files

    Papa Parse is run with [header: true]: a row is an object from header
    names to the text of the field, extra fields of a too long row being
    gathered in an array of strings. *)
Inductive CsvCell := Field (text : string) | ExtraFields (texts : list string).

Definition CsvRow := list (string * CsvCell).

Inductive PapaOutcome :=
  | PapaComplete (data : list CsvRow)   (* [complete(results)], with [results.data] *)
  | PapaError.                          (* [error()] *)

Section App.

Variable number : Type.
Variable Number_toString : number -> string.

Definition cell_value (c : CsvCell) : JsValue number :=
  match c with
  | Field text => JString text
  | ExtraFields texts => JArray (JString <$> texts)
  end.

Definition row_value (row : CsvRow) : JsValue number :=
  JObject (prod_map id cell_value <$> row).

(** The parsers are libraries outside the repository: a file is its name
    together with what [JSON.parse] makes of its text and what Papa Parse
    reports for it. *)
Record File := mkFile {
  name : string;
  parsed_json : Completion (JsValue number);
  parsed_csv : PapaOutcome
}.

(** ** Component state *)

Inductive SubmitStatus := idle | sending | success.
Inductive ImportMode := mode_manual | mode_file.

Inductive Callback :=
  | resume_handleSubmit          (* the rest of [handleSubmit] after its [await] *)
  | reset_submitStatus.          (* [() => setSubmitStatus('idle')] *)

Record Timer := mkTimer { callback : Callback; delay : nat }.

Inductive LibraryCall := call_JSON_parse | call_Papa_parse.

(** The six [useState] cells, then the environment: the timers set with
    [setTimeout] that have not fired and the parser calls made so far. *)
Record AppState := mkAppState {
  formData : FormData;
  isSubmitting : bool;
  submitStatus : SubmitStatus;
  importMode : ImportMode;
  showPreview : bool;
  errors : list string;
  timers : list Timer;
  calls : list LibraryCall
}.

Definition initialState : AppState :=
  mkAppState initialData false idle mode_manual false [] [] [].

(** ** Handlers: state passing with exceptions

    A state change made before an exception is thrown stays made. *)
Definition Handler (A : Type) : Type := AppState -> Completion A * AppState.

#[local] Instance Handler_ret : MRet Handler := fun A a st => (Normal a, st).
#[local] Instance Handler_bind : MBind Handler := fun A B f m st =>
  match m st with
  | (Normal a, st') => f a st'
  | (Throw e, st') => (Throw e, st')
  end.

Definition lift {A} (c : Completion A) : Handler A := fun st => (c, st).

Definition try_catch {A} (body : Handler A) (handler : JsError -> Handler A) : Handler A :=
  fun st => match body st with
            | (Normal a, st') => (Normal a, st')
            | (Throw e, st') => handler e st'
            end.

Definition exec {A} (m : Handler A) (st : AppState) : AppState := (m st).2.

Definition setFormData (v : FormData) : Handler unit := fun st =>
  (Normal (), mkAppState v (isSubmitting st) (submitStatus st) (importMode st)
                         (showPreview st) (errors st) (timers st) (calls st)).
Definition setIsSubmitting (v : bool) : Handler unit := fun st =>
  (Normal (), mkAppState (formData st) v (submitStatus st) (importMode st)
                         (showPreview st) (errors st) (timers st) (calls st)).
Definition setSubmitStatus (v : SubmitStatus) : Handler unit := fun st =>
  (Normal (), mkAppState (formData st) (isSubmitting st) v (importMode st)
                         (showPreview st) (errors st) (timers st) (calls st)).
Definition setImportMode (v : ImportMode) : Handler unit := fun st =>
  (Normal (), mkAppState (formData st) (isSubmitting st) (submitStatus st) v
                         (showPreview st) (errors st) (timers st) (calls st)).
Definition setShowPreview (v : bool) : Handler unit := fun st =>
  (Normal (), mkAppState (formData st) (isSubmitting st) (submitStatus st) (importMode st)
                         v (errors st) (timers st) (calls st)).
Definition setErrors (v : list string) : Handler unit := fun st =>
  (Normal (), mkAppState (formData st) (isSubmitting st) (submitStatus st) (importMode st)
                         (showPreview st) v (timers st) (calls st)).
Definition setTimeout (cb : Callback) (ms : nat) : Handler unit := fun st =>
  (Normal (), mkAppState (formData st) (isSubmitting st) (submitStatus st) (importMode st)
                         (showPreview st) (errors st) (timers st ++ [mkTimer cb ms])%list
                         (calls st)).
Definition timer_done (i : nat) : Handler unit := fun st =>
  (Normal (), mkAppState (formData st) (isSubmitting st) (submitStatus st) (importMode st)
                         (showPreview st) (errors st) (delete i (timers st)) (calls st)).
Definition record_call (c : LibraryCall) : Handler unit := fun st =>
  (Normal (), mkAppState (formData st) (isSubmitting st) (submitStatus st) (importMode st)
                         (showPreview st) (errors st) (timers st) (calls st ++ [c])%list).
Definition read {A} (f : AppState -> A) : Handler A := fun st => (Normal (f st), st).

(** ** [handleInputChange] *)

(** [setFormData(prev => ({ ...prev, [name]: value }))]: a computed key of
    an object literal always defines an own property. *)
Definition handleInputChange (name value : string) : Handler unit :=
  prev ← read formData;
  setFormData (<[name := value]> prev).

(** ** [validateForm] *)

Definition requiredFields : list string :=
  [ "rainfall_intensity"; "temperature"; "river_level"; "elevation"; "land_use" ].

(** [!formData[field]]: a property that is not there reads [undefined];
    [undefined] and the empty string are falsy, every other string is
    truthy. *)
Definition falsy (v : option string) : bool :=
  match v with
  | None => true
  | Some s => String.eqb s ""
  end.

Definition required_message (field : string) : string :=
  replace_underscores field +:+ " is required".

Definition newErrors_of (formData : FormData) : list string :=
  foldl (fun newErrors field =>
           if falsy (formData !! field)
           then (newErrors ++ [required_message field])%list
           else newErrors)
        [] requiredFields.

Definition validateForm : Handler bool :=
  formData ← read formData;
  let newErrors := newErrors_of formData in
  setErrors newErrors;;
  mret (Nat.eqb (length newErrors) 0).

(** ** [handleSubmit]

    The handler runs up to its [await], which parks the rest behind a timer
    of 5000 ms; the rest sets a second timer of 5000 ms. *)
Definition handleSubmit : Handler unit :=
  valid ← validateForm;
  if negb valid then mret ()
  else
    setIsSubmitting true;;
    setSubmitStatus sending;;
    setTimeout resume_handleSubmit 5000.

Definition handleSubmit_resumed : Handler unit :=
  setSubmitStatus success;;
  setIsSubmitting false;;
  setTimeout reset_submitStatus 5000.

(** ** [handleFileUpload] *)

Fixpoint forEach {A S} (body : A -> S -> Completion S) (l : list A) (acc : S)
  : Completion S :=
  match l with
  | [] => Normal acc
  | x :: rest => acc' ← body x acc; forEach body rest acc'
  end.

(** The body of the [forEach] of lines 156-160 and 176-180. *)
Definition copy_key (source : JsValue number) (key : string) (mappedData : FormData)
  : Completion FormData :=
  if js_in key initialData
  then value ← ToString Number_toString (get source key);
       Normal (js_set mappedData key value)
  else Normal mappedData.

(** The block both branches share (lines 155-160 and 175-180):
    [mappedData] starts as a copy of [initialData] and receives the string
    form of every property of [source] whose name is [in initialData]. *)
Definition mappedData_of (source : JsValue number) : Completion FormData :=
  let mappedData := initialData in
  keys ← Object_keys source;
  forEach (copy_key source) keys mappedData.

Definition JSON_parse (f : File) : Handler (JsValue number) :=
  record_call call_JSON_parse;; lift (parsed_json f).

Definition Papa_parse (f : File) : Handler PapaOutcome :=
  record_call call_Papa_parse;; mret (parsed_csv f).

Definition msg_invalid_json : string := "Invalid JSON file format".
Definition msg_csv_empty : string := "CSV file is empty or invalid".
Definition msg_csv_error : string := "Error parsing CSV file".
Definition msg_unsupported : string := "Unsupported file type. Please use JSON or CSV.".

Definition extension_of (file_name : string) : option string :=
  toLowerCase <$> pop (split "." file_name).

(** The argument is [e.target.files?.[0]]. *)
Definition handleFileUpload (selected : option File) : Handler unit :=
  match selected with
  | None => mret ()
  | Some file =>
      let extension := extension_of (name file) in
      if bool_decide (extension = Some "json") then
        try_catch
          (json ← JSON_parse file;
           mappedData ← lift (mappedData_of json);
           setFormData mappedData;;
           setErrors [])
          (fun err => setErrors [msg_invalid_json])
      else if bool_decide (extension = Some "csv") then
        results ← Papa_parse file;
        match results with
        | PapaComplete (row :: _) =>
            mappedData ← lift (mappedData_of (row_value row));
            setFormData mappedData;;
            setErrors []
        | PapaComplete [] => setErrors [msg_csv_empty]
        | PapaError => setErrors [msg_csv_error]
        end
      else setErrors [msg_unsupported]
  end.

(** ** The component as a transition system *)

Inductive Event :=
  | change (name value : string)     (* [onChange] of an input or select *)
  | submit                           (* [onSubmit] of the form *)
  | select_file (selected : option File)
  | timer_fires (i : nat)            (* the [i]-th pending timer expires *)
  | dismiss_errors                   (* the X of the error banner *)
  | toggle_importMode                (* line 273 *)
  | choose_importMode (m : ImportMode)
  | toggle_showPreview.

(** [disabled={isSubmitting || submitStatus === 'success'}] on the submit
    button; a form whose submit button is disabled is not submitted. *)
Definition submit_disabled (st : AppState) : bool :=
  isSubmitting st || match submitStatus st with success => true | _ => false end.

Definition run_callback (cb : Callback) : Handler unit :=
  match cb with
  | resume_handleSubmit => handleSubmit_resumed
  | reset_submitStatus => setSubmitStatus idle
  end.

(** The handler an event runs, if the event can happen in that state.  The
    inputs rendered are those of the schema. *)
Definition handler_of (ev : Event) (st : AppState) : option (Handler unit) :=
  match ev with
  | change name value =>
      if bool_decide (name ∈ schema_keys) then Some (handleInputChange name value) else None
  | submit => if submit_disabled st then None else Some handleSubmit
  | select_file selected => Some (handleFileUpload selected)
  | timer_fires i =>
      match timers st !! i with
      | Some t => Some (timer_done i;; run_callback (callback t))
      | None => None
      end
  | dismiss_errors => Some (setErrors [])
  | toggle_importMode =>
      Some (setImportMode (match importMode st with
                           | mode_manual => mode_file
                           | mode_file => mode_manual
                           end))
  | choose_importMode m => Some (setImportMode m)
  | toggle_showPreview => Some (setShowPreview (negb (showPreview st)))
  end.

Definition step (ev : Event) (st : AppState) : option AppState :=
  match handler_of ev st with
  | Some h => Some (exec h st)
  | None => None
  end.

Inductive reachable : AppState -> Prop :=
  | reachable_initial : reachable initialState
  | reachable_step st ev st' : reachable st -> step ev st = Some st' -> reachable st'.

End App.

Arguments File number : clear implicits.
Arguments mkFile {number} name parsed_json parsed_csv.
Arguments name {number} f.
Arguments parsed_json {number} f.
Arguments parsed_csv {number} f.
Arguments cell_value {number} c.
Arguments row_value {number} row.
Arguments copy_key {number} Number_toString source key mappedData.
Arguments mappedData_of {number} Number_toString source.
Arguments JSON_parse {number} f.
Arguments Papa_parse {number} f.
Arguments handleFileUpload {number} Number_toString selected.
Arguments Event number : clear implicits.
Arguments change {number} name value.
Arguments submit {number}.
Arguments select_file {number} selected.
Arguments timer_fires {number} i.
Arguments dismiss_errors {number}.
Arguments toggle_importMode {number}.
Arguments choose_importMode {number} m.
Arguments toggle_showPreview {number}.
Arguments handler_of {number} Number_toString ev st.
Arguments step {number} Number_toString ev st.
Arguments reachable {number} Number_toString st.
Arguments reachable_initial {number} Number_toString.
Arguments reachable_step {number} Number_toString st ev st' _ _.

(** ** Vocabulary of the specification

    The definitions below are not code of the component: they say in Rocq
    what the specification talks about (error kinds, letter case, the
    normalization rule, the submission state machine), and name the notions
    the proofs need. *)

(** The error taxonomy of the specification. *)
Inductive ErrorKind := UnsupportedFormat | MalformedInput | EmptyOrMalformed | ValidationFailed.

#[export] Instance ErrorKind_eq_dec : EqDecision ErrorKind.
Proof. solve_decision. Defined.

(** The kind each message of the code belongs to. *)
Definition error_kind (msg : string) : option ErrorKind :=
  if String.eqb msg msg_unsupported then Some UnsupportedFormat
  else if String.eqb msg msg_invalid_json then Some MalformedInput
  else if String.eqb msg msg_csv_empty || String.eqb msg msg_csv_error then Some EmptyOrMalformed
  else if bool_decide (msg ∈ required_message <$> requiredFields) then Some ValidationFailed
  else None.

(** At most one error category is active in an error list. *)
Definition one_category (errs : list string) : Prop :=
  exists kind, Forall (fun msg => error_kind msg = Some kind) errs.

(** [occurs c s]: the code unit [c] occurs in [s]. *)
Fixpoint occurs (c : ascii) (s : string) : bool :=
  match s with
  | EmptyString => false
  | String c' rest => Ascii.eqb c' c || occurs c rest
  end.

Definition is_lower (c : ascii) : Prop :=
  (97 <= nat_of_ascii c)%nat /\ (nat_of_ascii c <= 122)%nat.

Definition upcase (c : ascii) : ascii := ascii_of_nat (nat_of_ascii c - 32).

(** [in_any_case target s]: [s] spells the lower-case word [target], each
    letter in either case. *)
Fixpoint in_any_case (target s : string) : Prop :=
  match target, s with
  | EmptyString, EmptyString => True
  | String t target', String c s' => (c = t \/ c = upcase t) /\ in_any_case target' s'
  | _, _ => False
  end.

(** What the file-name extension is, before any case folding: the text
    after the last dot, the whole name when it has no dot. *)
Definition raw_extension (file_name : string) : string :=
  default "" (pop (split "." file_name)).

Fixpoint all_lower (s : string) : Prop :=
  match s with
  | EmptyString => True
  | String c rest => is_lower c /\ all_lower rest
  end.

(** An index key starts with a digit; no name [in initialData] does. *)
Definition digit_headed (s : string) : bool :=
  match s with
  | String c _ => (48 <=? nat_of_ascii c)%nat && (nat_of_ascii c <=? 57)%nat
  | EmptyString => false
  end.

(** The transition system of the specification. *)
Inductive Label := submit_passes | submit_fails | delay_elapses.

Inductive transition : SubmitStatus -> Label -> SubmitStatus -> Prop :=
  | start_sending : transition idle submit_passes sending
  | stay_idle : transition idle submit_fails idle
  | report_success : transition sending delay_elapses success
  | back_to_idle : transition success delay_elapses idle.

Section Vocabulary.

Context {number : Type} (Number_toString : number -> string).

Implicit Types (f : File number) (st : AppState) (ev : Event number).
Implicit Types (record : list (string * JsValue number)).

(** [convertible v]: no object with an own [toString] property is met when
    [v] is converted, that is [v] is not one and, if an array, holds none
    at any depth of nested arrays. *)
Fixpoint convertible (v : JsValue number) : bool :=
  match v with
  | JArray elements => forallb convertible elements
  | JObject properties => negb (bool_decide ("toString" ∈ own_property_names properties))
  | _ => true
  end.

(** What [join] makes of one element. *)
Definition element_form (x : JsValue number) : Completion string :=
  match x with
  | JUndefined | JNull => Normal ""
  | _ => ToString Number_toString x
  end.

(** The string a value is stored as, when it has one. *)
Definition string_form (v : JsValue number) : option string :=
  match ToString Number_toString v with
  | Normal s => Some s
  | Throw _ => None
  end.

(** A name the loop stores under: accepted by [in], and not the inherited
    accessor, whose setter drops the string. *)
Definition stored (keys : list string) (k : string) : Prop :=
  k ∈ keys /\ js_in k initialData = true /\ k <> "__proto__".

#[export] Instance stored_dec keys k : Decision (stored keys k).
Proof. unfold stored. apply _. Defined.

(** The field the normalization rule of the specification gives a key:
    for a schema key, the string form of the record's value, or the default
    when the record has no such key; nothing for any other key. *)
Definition normalized_field record (k : string) : option string :=
  if decide (k ∈ schema_keys)
  then match assoc k record with
       | Some v => string_form v
       | None => initialData !! k
       end
  else None.

(** The top-level values the specification calls object-like. *)
Definition object_like (v : JsValue number) : bool :=
  match v with
  | JObject _ | JArray _ => true
  | _ => false
  end.

(** A record is refused when a property the [in] test accepts holds a value
    without string form. *)
Definition unconvertible_property record : Prop :=
  exists k v, assoc k record = Some v /\ js_in k initialData = true /\ convertible v = false.

(** Why an import fails, by cause. *)
Inductive import_failure f : ErrorKind -> Prop :=
  | unsupported_extension :
      extension_of (name f) <> Some "json" -> extension_of (name f) <> Some "csv" ->
      import_failure f UnsupportedFormat
  | json_does_not_parse :
      extension_of (name f) = Some "json" -> throws (parsed_json f) ->
      import_failure f MalformedInput
  | json_cannot_be_mapped json :
      extension_of (name f) = Some "json" -> parsed_json f = Normal json ->
      throws (mappedData_of Number_toString json) ->
      import_failure f MalformedInput
  | csv_without_rows :
      extension_of (name f) = Some "csv" -> parsed_csv f = PapaComplete [] ->
      import_failure f EmptyOrMalformed
  | csv_parse_error :
      extension_of (name f) = Some "csv" -> parsed_csv f = PapaError ->
      import_failure f EmptyOrMalformed.

(** The error list an import attempt leaves depends on the file alone. *)
Definition import_errors (f : File number) : list string :=
  errors (exec (handleFileUpload Number_toString (Some f)) initialState).

(** The label of an event: a submit passes or fails validation, a timer
    that fires is a delay that has elapsed, other events are not part of a
    submission. *)
Definition label_of ev st : option Label :=
  match ev with
  | submit => Some (if bool_decide (newErrors_of (formData st) = [])
                    then submit_passes else submit_fails)
  | timer_fires _ => Some delay_elapses
  | _ => None
  end.

End Vocabulary.

Arguments import_failure {number} Number_toString f kind.
Arguments label_of {number} ev st.

(** The state after a successful import, and after a refused one. *)
Definition imported (st : AppState) (mappedData : FormData) (c : LibraryCall) : AppState :=
  mkAppState mappedData (isSubmitting st) (submitStatus st) (importMode st)
             (showPreview st) [] (timers st) (calls st ++ [c]).

Definition refused (st : AppState) (msg : string) (cs : list LibraryCall) : AppState :=
  mkAppState (formData st) (isSubmitting st) (submitStatus st) (importMode st)
             (showPreview st) [msg] (timers st) (calls st ++ cs).

(** A form data object with every field of the schema. *)
Definition total_on_schema (fd : FormData) : Prop :=
  forall k, k ∈ schema_keys -> is_Some (fd !! k).

(** What holds of the submission cells in every reachable state: the one
    timer pending, if any, is the one of the current phase. *)
Definition submission_invariant (st : AppState) : Prop :=
  match submitStatus st with
  | idle => isSubmitting st = false /\ timers st = []
  | sending => isSubmitting st = true /\ timers st = [mkTimer resume_handleSubmit 5000]
  | success => isSubmitting st = false /\ timers st = [mkTimer reset_submitStatus 5000]
  end.

(** For closed examples numbers are integers, printed in decimal as
    [Number::toString] prints the safe integers. *)
Definition integer_toString (z : Z) : string := NilZero.string_of_int (Z.to_int z).

(** A JSON file with the five required fields. *)
Definition complete_record : list (string * JsValue Z) :=
  [ ("rainfall_intensity", JNumber 10%Z); ("temperature", JNumber 25%Z);
    ("river_level", JString "2.5"); ("elevation", JNumber 100%Z);
    ("land_use", JString "urban"); ("station", JString "north") ].

Definition complete_file : File Z :=
  mkFile "reading.json" (Normal (JObject complete_record)) PapaError.

Definition after_import : AppState :=
  exec (handleFileUpload integer_toString (Some complete_file)) initialState.

Definition after_submit : AppState := exec handleSubmit after_import.

(** ** The rest of the component: field highlighting *)

(** [s.includes(t)]: [t] occurs in [s] as a contiguous part. *)
Fixpoint includes (s t : string) : bool :=
  String.prefix t s ||
  match s with
  | EmptyString => false
  | String _ rest => includes rest t
  end.

(** The test that gives an input or select its error colours (lines 224 and
    243): [errors.some(e => e.toLowerCase().includes(name.replace(/_/g, ' ')))]. *)
Definition highlighted (errors : list string) (name : string) : bool :=
  existsb (fun e => includes (toLowerCase e) (replace_underscores name)) errors.

(** The own keys a form data object may have: every schema key, and beside
    them only names inherited from [Object.prototype], [__proto__] apart. *)
Definition well_keyed (fd : FormData) : Prop :=
  (forall k, k ∈ schema_keys -> is_Some (fd !! k)) /\
  (forall k, is_Some (fd !! k) ->
     k ∈ schema_keys \/ (k ∈ Object_prototype_names /\ k <> "__proto__")).

(** The properties of a row of Papa Parse, as the mapping loop reads them. *)
Definition row_record {number} (row : CsvRow) : list (string * JsValue number) :=
  prod_map id cell_value <$> row.

(** ** Facts about strings *)

Lemma split_not_nil sep s : split sep s <> [].
Proof.
  destruct s as [|c s]; simpl; [done|].
  destruct (Ascii.eqb c sep); [done|].
  destruct (split sep s); done.
Qed.

Lemma split_without_sep sep s : occurs sep s = false -> split sep s = [s].
Proof.
  induction s as [|c s IH]; simpl; [done|].
  intros [Hc Hs]%orb_false_iff. rewrite Hc, (IH Hs). done.
Qed.

Lemma split_app sep pre suf :
  split sep (pre +:+ String sep suf) = (split sep pre ++ split sep suf)%list.
Proof.
  induction pre as [|c pre IH]; simpl.
  - by rewrite Ascii.eqb_refl.
  - rewrite IH. destruct (Ascii.eqb c sep); [done|].
    pose proof (split_not_nil sep pre). destruct (split sep pre); done.
Qed.

Lemma pop_split_after_last sep pre suf :
  occurs sep suf = false -> pop (split sep (pre +:+ String sep suf)) = Some suf.
Proof.
  intros Hsuf. unfold pop. rewrite split_app, (split_without_sep _ _ Hsuf).
  apply last_snoc.
Qed.

Lemma pop_split_is_Some sep s : is_Some (pop (split sep s)).
Proof.
  unfold pop. pose proof (split_not_nil sep s) as H.
  destruct (split sep s) as [|x l] using rev_ind; [done|].
  rewrite last_snoc. eauto.
Qed.

Lemma extension_of_raw file_name :
  extension_of file_name = Some (toLowerCase (raw_extension file_name)).
Proof.
  unfold extension_of, raw_extension.
  destruct (pop_split_is_Some "." file_name) as [x ->]. done.
Qed.

Lemma toLowerCase_unit_cases t c :
  is_lower t -> toLowerCase_unit c = t <-> c = t \/ c = upcase t.
Proof.
  intros [Hlo Hhi]. unfold toLowerCase_unit, upcase.
  pose proof (nat_ascii_bounded c) as Hc.
  split.
  - destruct ((65 <=? nat_of_ascii c)%nat && (nat_of_ascii c <=? 90)%nat) eqn:Hup.
    + intros <-. right. apply andb_true_iff in Hup as [?%Nat.leb_le ?%Nat.leb_le].
      rewrite nat_ascii_embedding by lia.
      replace (nat_of_ascii c + 32 - 32)%nat with (nat_of_ascii c) by lia.
      by rewrite ascii_nat_embedding.
    + intros ->. by left.
  - intros [-> | ->].
    + replace ((65 <=? nat_of_ascii t)%nat && (nat_of_ascii t <=? 90)%nat) with false; [done|].
      symmetry. apply andb_false_iff. right. apply Nat.leb_gt. lia.
    + rewrite nat_ascii_embedding by lia.
      replace ((65 <=? nat_of_ascii t - 32)%nat && (nat_of_ascii t - 32 <=? 90)%nat) with true.
      * replace (nat_of_ascii t - 32 + 32)%nat with (nat_of_ascii t) by lia.
        apply ascii_nat_embedding.
      * symmetry. apply andb_true_iff. split; apply Nat.leb_le; lia.
Qed.

Lemma toLowerCase_in_any_case target s :
  all_lower target -> toLowerCase s = target <-> in_any_case target s.
Proof.
  revert s. induction target as [|t target IH]; intros [|c s] Hlow; simpl; try (split; done).
  destruct Hlow as [Ht Hlow]. split.
  - intros [= Hc Hs]. split; [by apply toLowerCase_unit_cases | by apply IH].
  - intros [Hc Hs]. f_equal; [by apply toLowerCase_unit_cases | by apply IH].
Qed.

Lemma json_all_lower : all_lower "json".
Proof. repeat split; vm_compute; lia. Qed.

Lemma csv_all_lower : all_lower "csv".
Proof. repeat split; vm_compute; lia. Qed.

Lemma index_key_digit_headed i : digit_headed (index_key i) = true.
Proof.
  unfold index_key, NilZero.string_of_uint.
  destruct (Nat.to_uint i); reflexivity.
Qed.

(** ** Facts about the form data object *)

Lemma initialData_lookup_is_Some k : is_Some (initialData !! k) <-> k ∈ schema_keys.
Proof.
  unfold initialData, schema_keys. rewrite <- not_eq_None_Some.
  rewrite <- (not_elem_of_list_to_map (M := gmap string)).
  split; [apply dec_stable | auto].
Qed.

Lemma js_in_initialData k :
  js_in k initialData = true <-> k ∈ schema_keys \/ k ∈ Object_prototype_names.
Proof.
  unfold js_in. rewrite orb_true_iff, !bool_decide_eq_true.
  by rewrite initialData_lookup_is_Some.
Qed.

Lemma schema_key_js_in k : k ∈ schema_keys -> js_in k initialData = true.
Proof. intros. apply js_in_initialData. by left. Qed.

Lemma js_in_not_digit_headed k : js_in k initialData = true -> digit_headed k = false.
Proof.
  intros [H | H]%js_in_initialData; revert k H; apply Forall_forall;
    repeat constructor.
Qed.

Lemma index_key_not_js_in i : js_in (index_key i) initialData = false.
Proof.
  destruct (js_in (index_key i) initialData) eqn:E; [|done].
  apply js_in_not_digit_headed in E. by rewrite index_key_digit_headed in E.
Qed.

Lemma schema_key_not_proto k : k ∈ schema_keys -> k <> "__proto__".
Proof. revert k. apply Forall_forall. by apply (bool_decide_unpack _). Qed.

Lemma initialData_no_proto : initialData !! "__proto__" = None.
Proof.
  apply eq_None_not_Some. rewrite initialData_lookup_is_Some.
  intros H%schema_key_not_proto. done.
Qed.

Lemma js_set_lookup o key value k :
  o !! "__proto__" = None ->
  js_set o key value !! k =
    if bool_decide (k = key /\ key <> "__proto__") then Some value else o !! k.
Proof.
  intros Hproto. unfold js_set.
  destruct (String.eqb_spec key "__proto__") as [-> | Hne]; simpl.
  - rewrite bool_decide_eq_true_2 by done.
    rewrite bool_decide_eq_false_2; [done | by intros [_ ?]].
  - rewrite lookup_insert. case_decide; subst.
    + by rewrite bool_decide_eq_true_2.
    + rewrite bool_decide_eq_false_2; [done | by intros [-> _]].
Qed.

(** ** Facts about [String] and the key-copying loop *)

Section Conversion.

Context {number : Type} (Number_toString : number -> string).

Lemma value_array_ind (P : JsValue number -> Prop) :
  P JUndefined -> P JNull -> (forall b, P (JBool b)) -> (forall n, P (JNumber n)) ->
  (forall s, P (JString s)) ->
  (forall elements, Forall P elements -> P (JArray elements)) ->
  (forall properties, P (JObject properties)) ->
  forall v, P v.
Proof.
  intros Hu Hn Hb Hnum Hs Ha Ho.
  fix IH 1.
  intros [| | b | n | s | elements | properties];
    [exact Hu | exact Hn | apply Hb | apply Hnum | apply Hs | | apply Ho].
  apply Ha. induction elements as [|x l IHl]; constructor; [apply IH | exact IHl].
Qed.

Lemma join_with_returns {A} (f : A -> Completion string) l :
  returns (join_with f l) <-> Forall (fun x => returns (f x)) l.
Proof.
  induction l as [|x l IH].
  - split; [constructor | by eexists].
  - destruct l as [|y l].
    + rewrite Forall_singleton. done.
    + rewrite Forall_cons, <- IH. unfold returns.
      change (join_with f (x :: y :: l))
        with (s ← f x; r ← join_with f (y :: l); Normal (s +:+ "," +:+ r)).
      generalize (join_with f (y :: l)). intros rest.
      destruct (f x) as [s|e]; simpl.
      * destruct rest as [r|e]; simpl.
        -- split; [intros _; split; by eexists | intros _; by eexists].
        -- split; [by intros [? ?] | by intros [_ [? ?]]].
      * split; [by intros [? ?] | by intros [[? ?] _]].
Qed.

Lemma join_with_throws {A} (f : A -> Completion string) l e :
  join_with f l = Throw e -> exists x, x ∈ l /\ f x = Throw e.
Proof.
  induction l as [|x l IH]; [done|].
  destruct l as [|y l].
  - intros H. exists x. split; [by left | done].
  - change (join_with f (x :: y :: l))
      with (s ← f x; r ← join_with f (y :: l); Normal (s +:+ "," +:+ r)).
    remember (join_with f (y :: l)) as rest eqn:Er in *. clear Er.
    destruct (f x) as [s|e'] eqn:Ex; simpl.
    + destruct rest as [r|e']; simpl; [done|].
      intros [= ->]. destruct IH as (z & Hz & Hfz); [done|].
      exists z. split; [by right | done].
    + intros [= ->]. exists x. split; [by left | done].
Qed.

Lemma ToString_array (elements : list (JsValue number)) :
  ToString Number_toString (JArray elements)
  = join_with (element_form Number_toString) elements.
Proof. reflexivity. Qed.

Lemma convertible_array (elements : list (JsValue number)) :
  convertible (JArray elements) = forallb convertible elements.
Proof. reflexivity. Qed.

Lemma element_form_returns x :
  returns (element_form Number_toString x) <-> returns (ToString Number_toString x).
Proof. destruct x; simpl; try reflexivity; split; intros _; eexists; reflexivity. Qed.

Lemma ToString_error v e : ToString Number_toString v = Throw e -> e = TypeError.
Proof.
  revert e. induction v as [| | | | | elements IH | properties] using value_array_ind;
    intros e; try (simpl; discriminate).
  - rewrite ToString_array. intros (x & Hx & Hfx)%join_with_throws.
    rewrite Forall_forall in IH.
    destruct x; try (simpl in Hfx; discriminate); by apply (IH _ Hx).
  - simpl. case_bool_decide; [by intros [= <-] | done].
Qed.

Lemma ToString_returns v : returns (ToString Number_toString v) <-> convertible v = true.
Proof.
  induction v as [| | | | | elements IH | properties] using value_array_ind;
    try (split; intros _; [reflexivity | eexists; reflexivity]).
  - rewrite ToString_array, convertible_array, join_with_returns, forallb_forall.
    rewrite Forall_forall in *. setoid_rewrite <- list_elem_of_In.
    split; intros H x Hx.
    + apply IH; [done|]. by apply element_form_returns, H.
    + apply element_form_returns, IH; [done|]. by apply H.
  - simpl. case_bool_decide; simpl; split; try done; [by intros [? ?] | by eexists].
Qed.

Lemma ToString_throws v :
  ToString Number_toString v = Throw TypeError <-> convertible v = false.
Proof.
  rewrite <- not_true_iff_false, <- ToString_returns. unfold returns. split.
  - intros -> [? ?]. done.
  - intros H. destruct (ToString Number_toString v) as [s|e] eqn:E.
    + destruct H. by eexists.
    + by rewrite (ToString_error _ _ E).
Qed.

Lemma mappedData_of_unfold source :
  mappedData_of Number_toString source =
    (keys ← Object_keys source; forEach (copy_key Number_toString source) keys initialData).
Proof. reflexivity. Qed.

Lemma forEach_cons source k0 keys acc :
  forEach (copy_key Number_toString source) (k0 :: keys) acc =
    (acc' ← copy_key Number_toString source k0 acc;
     forEach (copy_key Number_toString source) keys acc').
Proof. reflexivity. Qed.

Lemma copy_key_accepted source key acc :
  js_in key initialData = true ->
  copy_key Number_toString source key acc =
    match ToString Number_toString (get source key) with
    | Normal value => Normal (js_set acc key value)
    | Throw e => Throw e
    end.
Proof. unfold copy_key. by intros ->. Qed.

Lemma copy_key_skipped source key acc :
  js_in key initialData = false -> copy_key Number_toString source key acc = Normal acc.
Proof. unfold copy_key. by intros ->. Qed.

Ltac bind_step := cbn [mbind Completion_bind].

Lemma forEach_copy_returns source keys acc :
  returns (forEach (copy_key Number_toString source) keys acc) <->
  (forall k, k ∈ keys -> js_in k initialData = true ->
             convertible (get source k) = true).
Proof.
  revert acc. induction keys as [|k0 keys IH]; intros acc.
  - split; [intros _ k Hk; by apply elem_of_nil in Hk | by eexists].
  - rewrite forEach_cons. destruct (js_in k0 initialData) eqn:Hin.
    + rewrite copy_key_accepted by done.
      destruct (ToString Number_toString (get source k0)) as [s|e] eqn:Es; bind_step.
      * rewrite IH. split.
        -- intros H k [-> | Hk]%elem_of_cons Hk'; [|by apply H].
           apply ToString_returns. by eexists.
        -- intros H k Hk. apply H. by right.
      * split; [by intros [? ?]|]. intros H.
        assert (convertible (get source k0) = true) as Hc by (apply H; [by left | done]).
        apply ToString_returns in Hc as [? Hc]. congruence.
    + rewrite copy_key_skipped by done. bind_step. rewrite IH. split.
      * intros H k [-> | Hk]%elem_of_cons Hk'; [congruence | by apply H].
      * intros H k Hk. apply H. by right.
Qed.

Lemma forEach_copy_lookup source keys acc m :
  acc !! "__proto__" = None ->
  forEach (copy_key Number_toString source) keys acc = Normal m ->
  m !! "__proto__" = None /\
  forall k, m !! k = if decide (stored keys k)
                     then string_form Number_toString (get source k)
                     else acc !! k.
Proof.
  revert acc. induction keys as [|k0 keys IH]; intros acc Hproto.
  - intros [= <-]. split; [done|]. intros k.
    rewrite decide_False; [done|]. intros [Hk _]. by apply elem_of_nil in Hk.
  - rewrite forEach_cons. destruct (js_in k0 initialData) eqn:Hin.
    + rewrite copy_key_accepted by done.
      destruct (ToString Number_toString (get source k0)) as [s|e] eqn:Es; bind_step; [|done].
      intros Hm. apply IH in Hm as [Hm1 Hm2].
      2:{ rewrite js_set_lookup by done. rewrite bool_decide_eq_false_2; [done|].
          by intros [? ?]. }
      split; [done|]. intros k. rewrite Hm2.
      destruct (decide (stored keys k)) as [Hk | Hk].
      * rewrite decide_True; [done|]. destruct Hk as (? & ? & ?). split_and!; try done. by right.
      * rewrite js_set_lookup by done. case_bool_decide as Hk0.
        -- destruct Hk0 as [-> ?]. rewrite decide_True.
           ++ unfold string_form. by rewrite Es.
           ++ split_and!; try done. by left.
        -- rewrite decide_False; [done|]. intros ([-> | ?]%elem_of_cons & ? & ?).
           ++ by apply Hk0.
           ++ by apply Hk.
    + rewrite copy_key_skipped by done. bind_step.
      intros Hm. apply IH in Hm as [Hm1 Hm2]; [|done].
      split; [done|]. intros k. rewrite Hm2.
      destruct (decide (stored keys k)) as [Hk | Hk].
      * rewrite decide_True; [done|]. destruct Hk as (? & ? & ?). split_and!; try done. by right.
      * rewrite decide_False; [done|]. intros ([-> | ?]%elem_of_cons & ? & ?).
        -- congruence.
        -- by apply Hk.
Qed.

End Conversion.

(** ** What [handleFileUpload] does, branch by branch *)

Section Upload.

Context {number : Type} (Number_toString : number -> string).

Implicit Types (f : File number) (st : AppState).

Ltac run_handler :=
  cbv [exec handleFileUpload try_catch JSON_parse Papa_parse record_call lift
       setFormData setErrors mbind mret Handler_bind Handler_ret imported refused
       formData isSubmitting submitStatus importMode showPreview errors timers calls snd].

Lemma handleFileUpload_json f st :
  extension_of (name f) = Some "json" ->
  exec (handleFileUpload Number_toString (Some f)) st =
    match parsed_json f with
    | Normal json =>
        match mappedData_of Number_toString json with
        | Normal mappedData => imported st mappedData call_JSON_parse
        | Throw _ => refused st msg_invalid_json [call_JSON_parse]
        end
    | Throw _ => refused st msg_invalid_json [call_JSON_parse]
    end.
Proof.
  intros Hext. destruct st. run_handler. rewrite Hext.
  rewrite bool_decide_eq_true_2 by done.
  destruct (parsed_json f) as [json|e]; [|reflexivity].
  destruct (mappedData_of Number_toString json); reflexivity.
Qed.

Lemma handleFileUpload_csv f st :
  extension_of (name f) = Some "csv" ->
  exec (handleFileUpload Number_toString (Some f)) st =
    match parsed_csv f with
    | PapaComplete (row :: _) =>
        match mappedData_of Number_toString (row_value row) with
        | Normal mappedData => imported st mappedData call_Papa_parse
        | Throw _ =>
            mkAppState (formData st) (isSubmitting st) (submitStatus st) (importMode st)
                       (showPreview st) (errors st) (timers st) (calls st ++ [call_Papa_parse])
        end
    | PapaComplete [] => refused st msg_csv_empty [call_Papa_parse]
    | PapaError => refused st msg_csv_error [call_Papa_parse]
    end.
Proof.
  intros Hext. destruct st. run_handler. rewrite Hext.
  rewrite bool_decide_eq_false_2 by done. rewrite bool_decide_eq_true_2 by done.
  destruct (parsed_csv f) as [[|row rest]|]; try reflexivity.
  destruct (mappedData_of Number_toString (row_value row)); reflexivity.
Qed.

Lemma handleFileUpload_other f st :
  extension_of (name f) <> Some "json" -> extension_of (name f) <> Some "csv" ->
  exec (handleFileUpload Number_toString (Some f)) st = refused st msg_unsupported [].
Proof.
  intros Hj Hc. destruct st. run_handler.
  rewrite !bool_decide_eq_false_2 by done. by rewrite app_nil_r.
Qed.

(** Rows of Papa Parse hold strings and arrays of strings: every value of
    a row has a string form, and the CSV branch never throws. *)
Lemma cell_value_convertible (c : CsvCell) : convertible (@cell_value number c) = true.
Proof.
  destruct c as [text | texts]; [done|].
  unfold cell_value. rewrite convertible_array.
  induction texts as [|t texts IH]; [done|]. exact IH.
Qed.

Lemma row_value_get_convertible (row : CsvRow) k :
  convertible (get (@row_value number row) k) = true.
Proof.
  unfold row_value, get. induction row as [|[k0 c] row IH]; [done|].
  cbn [fmap list_fmap prod_map fst snd id assoc].
  destruct (String.eqb k0 k); [apply cell_value_convertible | exact IH].
Qed.

Lemma mappedData_of_row_returns (row : CsvRow) :
  returns (mappedData_of Number_toString (row_value row)).
Proof.
  rewrite mappedData_of_unfold. unfold row_value at 1. cbn [Object_keys mbind Completion_bind].
  apply forEach_copy_returns. intros k _ _. apply row_value_get_convertible.
Qed.

(** The lookups of the mapped data, whatever the source. *)
Lemma mappedData_of_lookup (source : JsValue number) keys m :
  Object_keys source = Normal keys ->
  mappedData_of Number_toString source = Normal m ->
  forall k, m !! k = if decide (stored keys k)
                     then string_form Number_toString (get source k)
                     else initialData !! k.
Proof.
  intros Hkeys. rewrite mappedData_of_unfold, Hkeys. cbn [mbind Completion_bind].
  intros Hm. by apply (forEach_copy_lookup _ _ _ _ _ initialData_no_proto) in Hm as [_ Hm].
Qed.

Lemma mappedData_of_returns (source : JsValue number) keys :
  Object_keys source = Normal keys ->
  returns (mappedData_of Number_toString source) <->
  (forall k, k ∈ keys -> js_in k initialData = true -> convertible (get source k) = true).
Proof.
  intros Hkeys. rewrite mappedData_of_unfold, Hkeys. cbn [mbind Completion_bind].
  apply forEach_copy_returns.
Qed.

End Upload.

(** ** The import against the normalization rule *)

Section Normalization.

Context {number : Type} (Number_toString : number -> string).

Implicit Types (f : File number) (st : AppState).
Implicit Types (record : list (string * JsValue number)).

Lemma assoc_None record k : assoc k record = None <-> k ∉ own_property_names record.
Proof.
  unfold own_property_names. induction record as [|[k0 v] record IH]; simpl.
  - split; [intros _ H; by apply elem_of_nil in H | done].
  - rewrite not_elem_of_cons. destruct (String.eqb_spec k0 k) as [-> | Hne].
    + split; [done | by intros [? _]].
    + rewrite IH. split; [by intros ? | by intros [_ ?]].
Qed.

Lemma assoc_Some_name record k v : assoc k record = Some v -> k ∈ own_property_names record.
Proof.
  intros H. destruct (decide (k ∈ own_property_names record)) as [|Hn]; [done|].
  apply assoc_None in Hn. congruence.
Qed.

(** The rule holds of every record none of whose keys is a name inherited
    from [Object.prototype] (the accessor [__proto__] apart, which the
    assignment leaves alone). *)
Lemma mappedData_of_normalized record m :
  (forall k, k ∈ own_property_names record -> k ∈ Object_prototype_names -> k = "__proto__") ->
  mappedData_of Number_toString (JObject record) = Normal m ->
  forall k, m !! k = normalized_field Number_toString record k.
Proof.
  intros Hrec Hm k.
  rewrite (mappedData_of_lookup _ (JObject record) (own_property_names record) m eq_refl Hm).
  unfold normalized_field.
  destruct (decide (k ∈ schema_keys)) as [Hk | Hk].
  - destruct (assoc k record) as [v|] eqn:Ea.
    + rewrite decide_True.
      * cbn [get]. by rewrite Ea.
      * split_and!; [by eapply assoc_Some_name | by apply schema_key_js_in
                     | by apply schema_key_not_proto].
    + rewrite decide_False; [done|]. intros [Hin _]. by apply assoc_None in Ea.
  - rewrite decide_False.
    + apply eq_None_not_Some. by rewrite initialData_lookup_is_Some.
    + intros (Hin & [? | Hproto]%js_in_initialData & Hne); [done|].
      apply Hne, Hrec; done.
Qed.

End Normalization.

(** C1 (the code departs from the claim).  The normalization rule drops every
    key of the record that is not a schema key.  The test [key in
    initialData] also accepts the names [initialData] inherits: for the JSON
    file [{"constructor": "x"}] the import succeeds and the form data gains
    an own property [constructor], where the rule gives that key no field
    and, the record naming no schema key, the default form data. *)
Theorem import_keeps_inherited_name :
  let record := [("constructor", JString "x")] in
  let f := mkFile "data.json" (Normal (JObject record)) PapaError in
  let st' := exec (handleFileUpload integer_toString (Some f)) initialState in
  bool_decide ("constructor" ∈ schema_keys) = false /\
  normalized_field integer_toString record "constructor" = None /\
  errors st' = [] /\
  formData st' !! "constructor" = Some "x" /\
  formData st' = <["constructor" := "x"]> initialData /\
  formData st' <> initialData.
Proof.
  cbv zeta. split_and!; try (vm_compute; reflexivity).
  intros H. apply (f_equal (fun m => m !! "constructor")) in H.
  vm_compute in H. discriminate.
Qed.

(** ** When the JSON import fails *)

Section JsonFailure.

Context {number : Type} (Number_toString : number -> string).

Implicit Types (f : File number) (st : AppState).
Implicit Types (record : list (string * JsValue number)).

Lemma not_returns_throws {A} (c : Completion A) : ~ returns c <-> throws c.
Proof.
  unfold returns, throws. destruct c as [a|e]; split.
  - intros H. destruct H. by eexists.
  - by intros [? ?].
  - intros _. by eexists.
  - by intros _ [? ?].
Qed.

Lemma mappedData_of_object_throws record :
  throws (mappedData_of Number_toString (JObject record)) <-> unconvertible_property record.
Proof.
  rewrite <- not_returns_throws.
  rewrite (mappedData_of_returns _ (JObject record) (own_property_names record) eq_refl).
  split.
  - intros H.
    assert (~ Forall (fun k => js_in k initialData = true ->
                               convertible (get (JObject record) k) = true)
                     (own_property_names record)) as HF.
    { rewrite Forall_forall. intros HF. apply H. intros k Hk. by apply HF. }
    apply not_Forall_Exists in HF; [|apply _].
    apply Exists_exists in HF as (k & Hk & Hnot). cbn [get compose] in Hnot.
    destruct (assoc k record) as [v|] eqn:Ea; [|by apply assoc_None in Ea].
    exists k, v. cbn [from_option id] in Hnot.
    destruct (js_in k initialData); [|by destruct Hnot].
    split_and!; [done..|]. apply not_true_is_false. intros Hc. by apply Hnot.
  - intros (k & v & Ea & Hin & Hc) H.
    specialize (H k (assoc_Some_name _ _ _ Ea) Hin). cbn [get] in H.
    rewrite Ea in H. cbn [from_option id] in H. congruence.
Qed.

Lemma mappedData_of_index_keys_returns (source : JsValue number) n :
  Object_keys source = Normal (index_key <$> seq 0 n) ->
  mappedData_of Number_toString source = Normal initialData.
Proof.
  intros Hkeys. rewrite mappedData_of_unfold, Hkeys. cbn [mbind Completion_bind].
  generalize (seq 0 n). intros l. induction l as [|i l IH]; [done|].
  cbn [fmap list_fmap]. rewrite forEach_cons, copy_key_skipped by apply index_key_not_js_in.
  exact IH.
Qed.

(** What makes the mapping of a parsed value throw. *)
Lemma mappedData_of_throws (json : JsValue number) :
  throws (mappedData_of Number_toString json) <->
  json = JNull \/ json = JUndefined \/
  exists record, json = JObject record /\ unconvertible_property record.
Proof.
  destruct json as [| | b | n | s | elements | record].
  - split; [by auto | intros _; by exists TypeError].
  - split; [by auto | intros _; by exists TypeError].
  - split; [by intros [? ?] | intros [? | [? | (? & ? & _)]]; done].
  - split; [by intros [? ?] | intros [? | [? | (? & ? & _)]]; done].
  - rewrite (mappedData_of_index_keys_returns (JString s) (String.length s) eq_refl).
    split; [by intros [? ?] | intros [? | [? | (? & ? & _)]]; done].
  - rewrite (mappedData_of_index_keys_returns (JArray elements) (length elements) eq_refl).
    split; [by intros [? ?] | intros [? | [? | (? & ? & _)]]; done].
  - rewrite mappedData_of_object_throws. split.
    + intros H. right. right. by exists record.
    + intros [? | [? | (r & [= <-] & H)]]; done.
Qed.

(** C2 (amended).  For a file with extension json, the import fails with the
    invalid-JSON error exactly when [JSON.parse] throws, or the parsed value
    is [null] (or [undefined]), or it is an object one of whose properties
    accepted by the [in] test holds a value without string form.  A number,
    string, boolean or array at top level does not make the import fail. *)
Theorem json_import_fails_iff f st :
  extension_of (name f) = Some "json" ->
  errors (exec (handleFileUpload Number_toString (Some f)) st) = [msg_invalid_json] <->
  throws (parsed_json f) \/
  parsed_json f = Normal JNull \/ parsed_json f = Normal JUndefined \/
  exists record, parsed_json f = Normal (JObject record) /\ unconvertible_property record.
Proof.
  intros Hext. rewrite (handleFileUpload_json _ _ _ Hext).
  destruct (parsed_json f) as [json|e] eqn:Ep.
  - pose proof (mappedData_of_throws json) as Ht.
    destruct (mappedData_of Number_toString json) as [m|e] eqn:Em.
    + split; [done|]. intros H.
      assert (throws (Normal m : Completion FormData)) as [? ?]; [|done].
      apply Ht. destruct H as [[? ?] | [[= ->] | [[= ->] | (r & [= ->] & Hr)]]];
        [done | by left | by right; left | right; right; by exists r].
    + split; [|done]. intros _. right.
      destruct Ht as [Ht _].
      destruct Ht as [-> | [-> | (r & -> & Hr)]];
        [by exists e | by left | by right; left | right; right; by exists r].
  - split; [|done]. intros _. left. by exists e.
Qed.

End JsonFailure.

(** C2, as stated, fails: the file [data.json] holding [true] parses, its
    top-level value is not object-like, and the import succeeds. *)
Lemma json_import_of_boolean_succeeds :
  let f := mkFile "data.json" (Normal (JBool true)) PapaError in
  extension_of (name f) = Some "json" /\
  ~ (errors (exec (handleFileUpload integer_toString (Some f)) initialState)
       = [msg_invalid_json]
     <-> (throws (parsed_json f) \/
          exists v, parsed_json f = Normal v /\ object_like v = false)).
Proof.
  cbv zeta. split; [by vm_compute|].
  intros [_ H]. cut (@nil string = [msg_invalid_json]); [done|].
  etrans; [|apply H].
  - by vm_compute.
  - right. by exists (JBool true).
Qed.

Lemma json_import_fails_iff_witness :
  let f := mkFile "data.json" (Normal (@JNull Z)) PapaError in
  errors (exec (handleFileUpload integer_toString (Some f)) initialState) = [msg_invalid_json].
Proof.
  cbv zeta.
  apply (json_import_fails_iff integer_toString
           (mkFile "data.json" (Normal JNull) PapaError) initialState).
  - vm_compute. reflexivity.
  - right. left. reflexivity.
Defined.

(** ** Values of any type are stored through [String] *)

Section Stringification.

Context {number : Type} (Number_toString : number -> string).

Implicit Types (f : File number) (st : AppState).
Implicit Types (record : list (string * JsValue number)).

Lemma json_import_of_object f st record :
  extension_of (name f) = Some "json" ->
  parsed_json f = Normal (JObject record) ->
  let st' := exec (handleFileUpload Number_toString (Some f)) st in
  (~ unconvertible_property record ->
   errors st' = [] /\
   mappedData_of Number_toString (JObject record) = Normal (formData st')) /\
  (unconvertible_property record ->
   errors st' = [msg_invalid_json] /\ formData st' = formData st).
Proof.
  intros Hext Hp st'. subst st'. rewrite (handleFileUpload_json _ _ _ Hext), Hp.
  pose proof (mappedData_of_object_throws Number_toString record) as Ht.
  destruct (mappedData_of Number_toString (JObject record)) as [m|e]; split.
  - done.
  - intros [? ?]%Ht. done.
  - intros Hn. destruct Hn. apply Ht. by exists e.
  - done.
Qed.

Lemma csv_import_of_row f st row rest :
  extension_of (name f) = Some "csv" ->
  parsed_csv f = PapaComplete (row :: rest) ->
  let st' := exec (handleFileUpload Number_toString (Some f)) st in
  errors st' = [] /\
  mappedData_of Number_toString (row_value row) = Normal (formData st') /\
  st' = imported st (formData st') call_Papa_parse.
Proof.
  intros Hext Hp st'. subst st'. rewrite (handleFileUpload_csv _ _ _ Hext), Hp.
  destruct (mappedData_of_row_returns Number_toString row) as [m ->]. done.
Qed.

(** C9 (amended).  The import has no type check of its own: every value under
    a key the [in] test accepts goes through [String].  [null] is stored as
    "null", an object without own [toString] property as "[object Object]",
    an array as the comma-joined forms of its elements ([null] elements
    giving the empty string).  The one kind of value refused is the one
    [String] throws on, an object with an own [toString] property, alone or
    inside arrays: the JSON import then fails with the invalid-JSON error
    and leaves the form data as it was.  Values of a CSV row are never
    refused. *)
Theorem import_stores_string_forms :
  ToString Number_toString JNull = Normal "null" /\
  (forall record, "toString" ∉ own_property_names record ->
     ToString Number_toString (JObject record) = Normal "[object Object]") /\
  (forall elements,
     ToString Number_toString (JArray elements)
     = join_with (element_form Number_toString) elements) /\
  (forall v, returns (ToString Number_toString v) <-> convertible v = true) /\
  (forall f st record,
     extension_of (name f) = Some "json" ->
     parsed_json f = Normal (JObject record) ->
     let st' := exec (handleFileUpload Number_toString (Some f)) st in
     (~ unconvertible_property record ->
      errors st' = [] /\
      forall k v, k ∈ schema_keys -> assoc k record = Some v ->
        exists s, ToString Number_toString v = Normal s /\ formData st' !! k = Some s) /\
     (unconvertible_property record ->
      errors st' = [msg_invalid_json] /\ formData st' = formData st)) /\
  (forall f st row rest,
     extension_of (name f) = Some "csv" ->
     parsed_csv f = PapaComplete (row :: rest) ->
     let st' := exec (handleFileUpload Number_toString (Some f)) st in
     errors st' = [] /\
     forall k, k ∈ schema_keys -> k ∈ row.*1 ->
       exists s, ToString Number_toString (get (row_value row) k) = Normal s /\
                 formData st' !! k = Some s).
Proof.
  split_and!.
  - reflexivity.
  - intros record Hn. simpl. by rewrite bool_decide_eq_false_2.
  - apply ToString_array.
  - apply ToString_returns.
  - intros f st record Hext Hp st'.
    destruct (json_import_of_object f st record Hext Hp) as [Hok Hbad].
    split; [|exact Hbad]. intros Hconv. destruct (Hok Hconv) as [Herr Hm].
    split; [exact Herr|]. intros k v Hk Ea.
    assert (convertible v = true) as Hc.
    { apply not_false_iff_true. intros Hc. apply Hconv. exists k, v.
      split_and!; [done | by apply schema_key_js_in | done]. }
    apply (ToString_returns Number_toString) in Hc as [s Hs]. exists s. split; [done|].
    fold st' in Hm.
    rewrite (mappedData_of_lookup _ (JObject record) (own_property_names record) _ eq_refl Hm).
    rewrite decide_True.
    + cbn [get]. rewrite Ea. cbn [from_option id]. unfold string_form. by rewrite Hs.
    + split_and!; [by eapply assoc_Some_name | by apply schema_key_js_in
                   | by apply schema_key_not_proto].
  - intros f st row rest Hext Hp st'.
    destruct (csv_import_of_row f st row rest Hext Hp) as (Herr & Hm & _).
    split; [exact Herr|]. intros k Hk Hrow.
    pose proof (row_value_get_convertible (number := number) row k) as Hc.
    apply (ToString_returns Number_toString) in Hc as [s Hs]. exists s. split; [done|].
    fold st' in Hm.
    rewrite (mappedData_of_lookup _ (row_value row)
               (own_property_names (prod_map id cell_value <$> row)) _ eq_refl Hm).
    rewrite decide_True.
    + unfold string_form. by rewrite Hs.
    + split_and!; [| by apply schema_key_js_in | by apply schema_key_not_proto].
      unfold own_property_names. rewrite <- list_fmap_compose.
      apply list_elem_of_fmap in Hrow as ([k0 c] & -> & Hin).
      apply list_elem_of_fmap. by exists (k0, c).
Qed.

End Stringification.

(** C9, as stated, fails: for the JSON file [{"temperature": {"toString":
    null}}] the value under the schema key [temperature] is a nested
    object; it is not stored as "[object Object]", the import is refused. *)
Lemma import_refuses_object_with_toString :
  let record := [("temperature", JObject [("toString", @JNull Z)])] in
  let f := mkFile "data.json" (Normal (JObject record)) PapaError in
  let st' := exec (handleFileUpload integer_toString (Some f)) initialState in
  bool_decide ("temperature" ∈ schema_keys) = true /\
  errors st' = [msg_invalid_json] /\
  formData st' !! "temperature" = Some "" /\
  formData st' !! "temperature" <> Some "[object Object]".
Proof. cbv zeta. split_and!; by vm_compute. Qed.

Lemma import_stores_string_forms_witness :
  let record := [("land_use", JArray [JNull; JNumber 1%Z; JArray [JBool true; JObject []]])] in
  let f := mkFile "data.json" (Normal (JObject record)) PapaError in
  let st' := exec (handleFileUpload integer_toString (Some f)) initialState in
  errors st' = [] /\
  forall k v, k ∈ schema_keys -> assoc k record = Some v ->
    exists s, ToString integer_toString v = Normal s /\ formData st' !! k = Some s.
Proof.
  cbv zeta.
  destruct (import_stores_string_forms integer_toString) as (_ & _ & _ & _ & Hjson & _).
  refine (proj1 (Hjson (mkFile "data.json" (Normal (JObject _)) PapaError) initialState _
                       _ eq_refl) _).
  - vm_compute. reflexivity.
  - intros (k & v & Ea & _ & Hc). cbn [assoc] in Ea.
    destruct (String.eqb "land_use" k); [|discriminate Ea].
    injection Ea as <-. vm_compute in Hc. discriminate Hc.
Defined.

(** ** Outcome of an import *)

Section ImportOutcome.

Context {number : Type} (Number_toString : number -> string).

Implicit Types (f : File number) (st : AppState).


(** C3.  An import that fails, for whichever cause, leaves the form data as
    it was and sets the error list to one message of the kind of the
    failure.  An import that does not fail clears the error list and
    replaces the form data by the data mapped from the file, whatever the
    form data was before. *)
Theorem import_outcome f st :
  let st' := exec (handleFileUpload Number_toString (Some f)) st in
  (forall kind, import_failure Number_toString f kind ->
     formData st' = formData st /\
     exists msg, errors st' = [msg] /\ error_kind msg = Some kind) /\
  ((forall kind, ~ import_failure Number_toString f kind) ->
     errors st' = [] /\
     (exists source, mappedData_of Number_toString source = Normal (formData st')) /\
     forall st0, formData (exec (handleFileUpload Number_toString (Some f)) st0)
                 = formData st').
Proof.
  intros st'. subst st'. split.
  - intros kind [Hj Hc | Hext [e He] | json Hext Hp [e He] | Hext Hp | Hext Hp].
    + rewrite (handleFileUpload_other _ _ _ Hj Hc). split; [done|]. by exists msg_unsupported.
    + rewrite (handleFileUpload_json _ _ _ Hext), He. split; [done|].
      by exists msg_invalid_json.
    + rewrite (handleFileUpload_json _ _ _ Hext), Hp, He. split; [done|].
      by exists msg_invalid_json.
    + rewrite (handleFileUpload_csv _ _ _ Hext), Hp. split; [done|]. by exists msg_csv_empty.
    + rewrite (handleFileUpload_csv _ _ _ Hext), Hp. split; [done|]. by exists msg_csv_error.
  - intros Hok.
    destruct (decide (extension_of (name f) = Some "json")) as [Hext | Hj].
    + destruct (parsed_json f) as [json|e] eqn:Hp.
      2:{ destruct (Hok MalformedInput). apply json_does_not_parse; [done|]. by exists e. }
      destruct (mappedData_of Number_toString json) as [m|e] eqn:Hm.
      2:{ destruct (Hok MalformedInput).
          eapply json_cannot_be_mapped; [done.. |]. by exists e. }
      split_and!.
      * by rewrite (handleFileUpload_json _ _ _ Hext), Hp, Hm.
      * exists json. by rewrite (handleFileUpload_json _ _ _ Hext), Hp, Hm.
      * intros st0. by rewrite !(handleFileUpload_json _ _ _ Hext), Hp, Hm.
    + destruct (decide (extension_of (name f) = Some "csv")) as [Hext | Hc].
      2:{ destruct (Hok UnsupportedFormat). by apply unsupported_extension. }
      destruct (parsed_csv f) as [[|row rest]|] eqn:Hp.
      * destruct (Hok EmptyOrMalformed). by apply csv_without_rows.
      * destruct (csv_import_of_row Number_toString f st row rest Hext Hp) as (Herr & Hm & _).
        split_and!; [done | by exists (row_value row) |].
        intros st0.
        destruct (csv_import_of_row Number_toString f st0 row rest Hext Hp) as (_ & Hm0 & _).
        congruence.
      * destruct (Hok EmptyOrMalformed). by apply csv_parse_error.
Qed.

(** Dispatch on the extension as written in the file name. *)
Lemma dispatch_on_raw_extension f st :
  let st' := exec (handleFileUpload Number_toString (Some f)) st in
  let extension := raw_extension (name f) in
  (in_any_case "json" extension -> calls st' = (calls st ++ [call_JSON_parse])%list) /\
  (in_any_case "csv" extension -> calls st' = (calls st ++ [call_Papa_parse])%list) /\
  (~ in_any_case "json" extension -> ~ in_any_case "csv" extension ->
     st' = refused st msg_unsupported []).
Proof.
  intros st' extension. subst st' extension.
  pose proof (extension_of_raw (name f)) as Hraw.
  split_and!.
  - intros Hj%(toLowerCase_in_any_case _ _ json_all_lower).
    rewrite Hj in Hraw. rewrite (handleFileUpload_json _ _ _ Hraw).
    destruct (parsed_json f) as [json|e]; [|done].
    by destruct (mappedData_of Number_toString json).
  - intros Hc%(toLowerCase_in_any_case _ _ csv_all_lower).
    rewrite Hc in Hraw. rewrite (handleFileUpload_csv _ _ _ Hraw).
    destruct (parsed_csv f) as [[|row rest]|]; [done | | done].
    by destruct (mappedData_of Number_toString (row_value row)).
  - intros Hj Hc. apply handleFileUpload_other.
    + rewrite Hraw. intros [= H]. by apply Hj, (toLowerCase_in_any_case _ _ json_all_lower).
    + rewrite Hraw. intros [= H]. by apply Hc, (toLowerCase_in_any_case _ _ csv_all_lower).
Qed.

Lemma refused_without_call st msg :
  errors (refused st msg []) = [msg] /\
  calls (refused st msg []) = calls st /\
  formData (refused st msg []) = formData st.
Proof. cbn [errors calls formData refused]. by rewrite app_nil_r. Qed.

(** C7.  The extension is compared without regard to letter case.  A file
    whose extension spells json goes to [JSON.parse] and to no other parser,
    one whose extension spells csv goes to Papa Parse and to no other; any
    other file is refused with the unsupported-format error, no parser is
    called and the form data stays. *)
Theorem extension_dispatch f st :
  let st' := exec (handleFileUpload Number_toString (Some f)) st in
  let extension := raw_extension (name f) in
  extension_of (name f) = Some (toLowerCase extension) /\
  (in_any_case "json" extension -> calls st' = (calls st ++ [call_JSON_parse])%list) /\
  (in_any_case "csv" extension -> calls st' = (calls st ++ [call_Papa_parse])%list) /\
  (~ in_any_case "json" extension -> ~ in_any_case "csv" extension ->
     errors st' = [msg_unsupported] /\
     error_kind msg_unsupported = Some UnsupportedFormat /\
     calls st' = calls st /\
     formData st' = formData st).
Proof.
  intros st' extension. subst st' extension.
  destruct (dispatch_on_raw_extension f st) as (Hj & Hc & Ho). cbv zeta in Hj, Hc, Ho.
  split_and!; [apply extension_of_raw | done | done |].
  intros H1 H2. rewrite (Ho H1 H2).
  destruct (refused_without_call st msg_unsupported) as (? & ? & ?). done.
Qed.

(** C10 (amended).  The extension is the text after the last dot of the file
    name, and the whole name when the name has no dot.  A dotless file whose
    name spells json or csv, in any letter case, is parsed as that format;
    every other dotless name is refused as unsupported. *)
Theorem dotless_name_dispatch :
  (forall pre suf, occurs "." suf = false ->
     raw_extension (pre +:+ String "." suf) = suf) /\
  (forall file_name, occurs "." file_name = false ->
     raw_extension file_name = file_name /\
     extension_of file_name = Some (toLowerCase file_name)) /\
  (forall f st, occurs "." (name f) = false ->
     let st' := exec (handleFileUpload Number_toString (Some f)) st in
     (in_any_case "json" (name f) -> calls st' = (calls st ++ [call_JSON_parse])%list) /\
     (in_any_case "csv" (name f) -> calls st' = (calls st ++ [call_Papa_parse])%list) /\
     (~ in_any_case "json" (name f) -> ~ in_any_case "csv" (name f) ->
        errors st' = [msg_unsupported] /\ calls st' = calls st /\
        formData st' = formData st)).
Proof.
  assert (forall file_name, occurs "." file_name = false -> raw_extension file_name = file_name)
    as Hdotless.
  { intros file_name Hn. unfold raw_extension, pop. by rewrite split_without_sep. }
  split_and!.
  - intros pre suf Hsuf. unfold raw_extension. by rewrite pop_split_after_last.
  - intros file_name Hn. split; [by apply Hdotless|].
    by rewrite extension_of_raw, Hdotless.
  - intros f st Hn st'. subst st'.
    destruct (dispatch_on_raw_extension f st) as (Hj & Hc & Ho).
    cbv zeta in Hj, Hc, Ho. rewrite (Hdotless _ Hn) in Hj, Hc, Ho.
    split_and!; [done..|]. intros H1 H2. rewrite (Ho H1 H2).
    apply refused_without_call.
Qed.

End ImportOutcome.

(** C10, as stated, fails on the letter case: the dotless name [JSON] is
    neither [json] nor [csv], and the file is parsed as JSON, not refused. *)
Lemma dotless_upper_case_name_is_parsed :
  let f := mkFile "JSON" (Normal (@JObject Z [])) PapaError in
  let st' := exec (handleFileUpload integer_toString (Some f)) initialState in
  occurs "." (name f) = false /\ name f <> "json" /\ name f <> "csv" /\
  calls st' = [call_JSON_parse] /\ errors st' = [] /\ errors st' <> [msg_unsupported].
Proof. cbv zeta. split_and!; by vm_compute. Qed.


Lemma import_outcome_witness :
  let f := mkFile "notes.txt" (Throw SyntaxError) PapaError in
  let st' := exec (handleFileUpload integer_toString (Some f)) initialState in
  formData st' = formData initialState /\
  exists msg, errors st' = [msg] /\ error_kind msg = Some UnsupportedFormat.
Proof.
  cbv zeta.
  refine (proj1 (import_outcome integer_toString
                   (mkFile "notes.txt" (Throw SyntaxError) PapaError) initialState)
                UnsupportedFormat _).
  apply unsupported_extension; vm_compute; discriminate.
Defined.

Lemma extension_dispatch_witness :
  let f := mkFile "gauge.data.JsOn" (Normal (@JObject Z [])) PapaError in
  calls (exec (handleFileUpload integer_toString (Some f)) initialState)
  = [call_JSON_parse].
Proof.
  cbv zeta.
  refine (proj1 (proj2 (extension_dispatch integer_toString
                          (mkFile "gauge.data.JsOn" (Normal (JObject [])) PapaError)
                          initialState)) _).
  vm_compute. repeat split; auto.
Defined.

Lemma dotless_name_dispatch_witness :
  let f := mkFile "Csv" (Throw SyntaxError) (PapaComplete []) in
  calls (exec (handleFileUpload integer_toString (Some f)) initialState)
  = [call_Papa_parse].
Proof.
  cbv zeta.
  refine (proj1 (proj2 (proj2 (proj2 (dotless_name_dispatch integer_toString))
                          (mkFile "Csv" (Throw SyntaxError) (PapaComplete []))
                          initialState eq_refl)) _).
  vm_compute. repeat split; auto.
Defined.

(** ** The validator *)

Lemma foldl_push_filter {A} (p : A -> bool) (P : A -> Prop) `{!forall x, Decision (P x)}
    (g : A -> string) (l : list A) (acc : list string) :
  (forall x, x ∈ l -> p x = true <-> P x) ->
  foldl (fun acc x => if p x then (acc ++ [g x])%list else acc) acc l
  = (acc ++ (g <$> filter P l))%list.
Proof.
  revert acc. induction l as [|x l IH]; intros acc Hp; simpl.
  - by rewrite app_nil_r.
  - rewrite IH by (intros y Hy; apply Hp; by right).
    assert (p x = true <-> P x) as Hx by (apply Hp; by left).
    destruct (p x) eqn:Epx.
    + rewrite filter_cons_True by by apply Hx. by rewrite <- app_assoc.
    + rewrite filter_cons_False; [done|]. intros HP%Hx. done.
Qed.

Lemma newErrors_of_falsy (fd : FormData) :
  newErrors_of fd
  = required_message <$> filter (fun field => falsy (fd !! field) = true) requiredFields.
Proof.
  unfold newErrors_of.
  by rewrite (foldl_push_filter _ (fun field => falsy (fd !! field) = true)).
Qed.

Lemma requiredFields_in_schema field : field ∈ requiredFields -> field ∈ schema_keys.
Proof. revert field. apply Forall_forall. by apply (bool_decide_unpack _). Qed.

Lemma required_message_inj a b :
  a ∈ requiredFields -> b ∈ requiredFields -> required_message a = required_message b -> a = b.
Proof.
  revert b. revert a. 
  assert (Forall (fun a => Forall (fun b => required_message a = required_message b -> a = b)
                                  requiredFields) requiredFields) as H.
  { by apply (bool_decide_unpack _). }
  intros a b Ha Hb. rewrite Forall_forall in H. specialize (H a Ha).
  rewrite Forall_forall in H. by apply H.
Qed.

Lemma required_messages :
  required_message <$> requiredFields
  = [ "rainfall intensity is required"; "temperature is required";
      "river level is required"; "elevation is required"; "land use is required" ].
Proof. reflexivity. Qed.

Lemma validateForm_exec st :
  errors (exec validateForm st) = newErrors_of (formData st) /\
  formData (exec validateForm st) = formData st /\
  (validateForm st).1 = Normal (bool_decide (newErrors_of (formData st) = [])).
Proof.
  destruct st as [fd ? ? ? ? ? ? ?]. cbv [exec validateForm read setErrors mbind mret
    Handler_bind Handler_ret formData errors fst snd].
  split_and!; [done..|]. f_equal. by destruct (newErrors_of fd).
Qed.

(** C4.  On a form data object with all its fields the validator yields, in
    the order rainfall_intensity, temperature, river_level, elevation,
    land_use, the message "<name with spaces for underscores> is required" of
    each of these five fields that holds the empty string, and nothing else.
    A value of blanks only is not reported.  With the five fields empty the
    result is the five messages in that order. *)
Theorem validator_reports_empty_required_fields (fd : FormData) :
  total_on_schema fd ->
  newErrors_of fd
  = required_message <$> filter (fun field => fd !! field = Some "") requiredFields /\
  required_message <$> requiredFields
  = [ "rainfall intensity is required"; "temperature is required";
      "river level is required"; "elevation is required"; "land use is required" ] /\
  (forall st, formData st = fd -> errors (exec validateForm st) = newErrors_of fd) /\
  (forall field v, field ∈ requiredFields -> fd !! field = Some v -> v <> "" ->
     required_message field ∉ newErrors_of fd) /\
  ((forall field, field ∈ requiredFields -> fd !! field = Some "") ->
     newErrors_of fd
     = [ "rainfall intensity is required"; "temperature is required";
         "river level is required"; "elevation is required"; "land use is required" ]).
Proof.
  intros Htotal.
  assert (newErrors_of fd
          = required_message <$> filter (fun field => fd !! field = Some "") requiredFields)
    as Heq.
  { unfold newErrors_of.
    rewrite (foldl_push_filter _ (fun field => fd !! field = Some "")); [done|].
    intros field Hf. destruct (Htotal field (requiredFields_in_schema _ Hf)) as [v ->].
    simpl. rewrite String.eqb_eq. split; [by intros -> | by intros [= ->]]. }
  split_and!.
  - exact Heq.
  - reflexivity.
  - intros st <-. apply validateForm_exec.
  - intros field v Hf Hv Hne. rewrite Heq.
    intros (field' & Hmsg & [Hempty Hf']%list_elem_of_filter)%list_elem_of_fmap.
    apply required_message_inj in Hmsg; [|done..]. subst field'. congruence.
  - intros Hall. rewrite Heq, <- required_messages. f_equal.
    unfold requiredFields in *.
    rewrite !filter_cons_True by (apply Hall; set_solver). done.
Qed.

Lemma validator_reports_empty_required_fields_witness :
  let fd := <["temperature" := " "]> (<["land_use" := "urban"]> initialData) in
  newErrors_of fd
  = [ "rainfall intensity is required"; "river level is required"; "elevation is required" ].
Proof.
  cbv zeta.
  refine (eq_trans (proj1 (validator_reports_empty_required_fields
            (<["temperature" := " "]> (<["land_use" := "urban"]> initialData)) _)) _).
  - intros k Hk. rewrite !lookup_insert. repeat case_decide; [by eexists ..|].
    by apply initialData_lookup_is_Some.
  - vm_compute. reflexivity.
Defined.

(** ** Submission *)

Lemma handleSubmit_exec st :
  exec handleSubmit st =
    match newErrors_of (formData st) with
    | [] => mkAppState (formData st) true sending (importMode st) (showPreview st) []
                       (timers st ++ [mkTimer resume_handleSubmit 5000]) (calls st)
    | errs => mkAppState (formData st) (isSubmitting st) (submitStatus st) (importMode st)
                         (showPreview st) errs (timers st) (calls st)
    end.
Proof.
  destruct st as [fd ? ? ? ? ? ? ?].
  cbv [exec handleSubmit validateForm read setErrors setIsSubmitting setSubmitStatus
       setTimeout mbind mret Handler_bind Handler_ret formData isSubmitting submitStatus
       importMode showPreview errors timers calls fst snd].
  destruct (newErrors_of fd); reflexivity.
Qed.

Section Submission.

Context {number : Type} (Number_toString : number -> string).

Implicit Types (st : AppState) (ev : Event number).

Lemma handleFileUpload_frame selected st :
  let st' := exec (handleFileUpload Number_toString selected) st in
  isSubmitting st' = isSubmitting st /\ submitStatus st' = submitStatus st /\
  timers st' = timers st.
Proof.
  intros st'. subst st'. destruct selected as [f|]; [|done].
  destruct (decide (extension_of (name f) = Some "json")) as [Hj | Hj].
  - rewrite (handleFileUpload_json _ _ _ Hj).
    destruct (parsed_json f) as [json|e]; [|done].
    by destruct (mappedData_of Number_toString json).
  - destruct (decide (extension_of (name f) = Some "csv")) as [Hc | Hc].
    + rewrite (handleFileUpload_csv _ _ _ Hc).
      destruct (parsed_csv f) as [[|row rest]|]; [done | | done].
      by destruct (mappedData_of Number_toString (row_value row)).
    + by rewrite (handleFileUpload_other _ _ _ Hj Hc).
Qed.

Lemma handleFileUpload_errors f st :
  errors (exec (handleFileUpload Number_toString (Some f)) st) = import_errors Number_toString f /\
  (import_errors Number_toString f = [] \/
   exists msg, import_errors Number_toString f = [msg] /\
     msg ∈ [msg_invalid_json; msg_csv_empty; msg_csv_error; msg_unsupported]).
Proof.
  unfold import_errors.
  destruct (decide (extension_of (name f) = Some "json")) as [Hj | Hj].
  - rewrite !(handleFileUpload_json _ _ _ Hj).
    destruct (parsed_json f) as [json|e].
    + destruct (mappedData_of Number_toString json).
      * split; [done | by left].
      * split; [done | right]. exists msg_invalid_json. split; [done | set_solver].
    + split; [done | right]. exists msg_invalid_json. split; [done | set_solver].
  - destruct (decide (extension_of (name f) = Some "csv")) as [Hc | Hc].
    + rewrite !(handleFileUpload_csv _ _ _ Hc).
      destruct (parsed_csv f) as [[|row rest]|].
      * split; [done | right]. exists msg_csv_empty. split; [done | set_solver].
      * destruct (mappedData_of_row_returns Number_toString row) as [m ->].
        split; [done | by left].
      * split; [done | right]. exists msg_csv_error. split; [done | set_solver].
    + rewrite !(handleFileUpload_other _ _ _ Hj Hc).
      split; [done | right]. exists msg_unsupported. split; [done | set_solver].
Qed.

Lemma reachable_submission_invariant st :
  reachable Number_toString st -> submission_invariant st.
Proof.
  induction 1 as [|st ev st' _ IH Hstep]; [done|].
  unfold step in Hstep. destruct (handler_of Number_toString ev st) as [h|] eqn:Hh; [|done].
  injection Hstep as <-. unfold submission_invariant in *.
  destruct ev as [k v | | selected | i | | | m |]; cbn [handler_of] in Hh.
  - case_bool_decide; [|done]. injection Hh as <-. by destruct st.
  - destruct (submit_disabled st) eqn:Hd; [done|]. injection Hh as <-.
    unfold submit_disabled in Hd. apply orb_false_iff in Hd as [Hsub Hst].
    rewrite handleSubmit_exec.
    destruct (submitStatus st) eqn:Es; [| destruct IH; congruence | done].
    destruct IH as [_ Ht]. destruct (newErrors_of (formData st)); cbn; rewrite ?Es, ?Ht; done.
  - injection Hh as <-.
    destruct (handleFileUpload_frame selected st) as (-> & -> & ->). done.
  - destruct (timers st !! i) as [t|] eqn:Et; [|done]. injection Hh as <-.
    destruct st as [fd sub status mode preview errs ts cs]. cbn in *.
    destruct status; destruct IH as [-> ->]; [done | |];
      destruct i; cbn in Et; try done; injection Et as <-; done.
  - injection Hh as <-. by destruct st.
  - injection Hh as <-. by destruct st.
  - injection Hh as <-. by destruct st.
  - injection Hh as <-. by destruct st.
Qed.

(** C5.  In every reachable state, a step of the component either leaves the
    submit status alone or is one of the four transitions: idle to sending
    by a submit that passes validation, idle to idle by a submit that fails
    it, sending to success and success to idle by the expiry of the one
    pending timer, set for 5000 ms.  Each of them can be taken, and while
    sending (as while success is shown) a submit is not accepted. *)
Theorem submission_state_machine st :
  reachable Number_toString st ->
  (forall ev st', step Number_toString ev st = Some st' ->
     match label_of ev st with
     | Some l => transition (submitStatus st) l (submitStatus st')
     | None => submitStatus st' = submitStatus st
     end) /\
  (submitStatus st = idle ->
     exists st', step Number_toString submit st = Some st' /\
       submitStatus st' = if bool_decide (newErrors_of (formData st) = [])
                          then sending else idle) /\
  (submitStatus st = sending ->
     step Number_toString submit st = None /\
     timers st = [mkTimer resume_handleSubmit 5000] /\
     exists st', step Number_toString (timer_fires 0) st = Some st' /\
                 submitStatus st' = success) /\
  (submitStatus st = success ->
     step Number_toString submit st = None /\
     timers st = [mkTimer reset_submitStatus 5000] /\
     exists st', step Number_toString (timer_fires 0) st = Some st' /\
                 submitStatus st' = idle).
Proof.
  intros Hinv%reachable_submission_invariant. unfold submission_invariant in Hinv.
  split_and!.
  - intros ev st' Hstep. unfold step in Hstep.
    destruct (handler_of Number_toString ev st) as [h|] eqn:Hh; [|done].
    injection Hstep as <-.
    destruct ev as [k v | | selected | i | | | m |]; cbn [handler_of label_of] in *.
    + case_bool_decide; [|done]. injection Hh as <-. by destruct st.
    + destruct (submit_disabled st) eqn:Hd; [done|]. injection Hh as <-.
      unfold submit_disabled in Hd. apply orb_false_iff in Hd as [Hsub Hst].
      rewrite handleSubmit_exec.
      destruct (submitStatus st) eqn:Es; [| destruct Hinv; congruence | done].
      destruct (newErrors_of (formData st)) eqn:En; cbn [submitStatus].
      * rewrite bool_decide_eq_true_2 by done. constructor.
      * rewrite bool_decide_eq_false_2 by done. constructor.
    + injection Hh as <-.
      by destruct (handleFileUpload_frame selected st) as (_ & -> & _).
    + destruct (timers st !! i) as [t|] eqn:Et; [|done]. injection Hh as <-.
      destruct st as [fd sub status mode preview errs ts cs]. cbn in *.
      destruct status; destruct Hinv as [-> ->]; [done | |];
        destruct i; cbn in Et; try done; injection Et as <-; constructor.
    + injection Hh as <-. by destruct st.
    + injection Hh as <-. by destruct st.
    + injection Hh as <-. by destruct st.
    + injection Hh as <-. by destruct st.
  - intros Es. rewrite Es in Hinv. destruct Hinv as [Hsub Ht].
    unfold step. cbn [handler_of]. unfold submit_disabled. rewrite Hsub, Es. cbn [orb].
    eexists. split; [reflexivity|]. rewrite handleSubmit_exec.
    destruct (newErrors_of (formData st)); cbn [submitStatus].
    + by rewrite bool_decide_eq_true_2.
    + by rewrite bool_decide_eq_false_2.
  - intros Es. rewrite Es in Hinv. destruct Hinv as [Hsub Ht].
    unfold step. cbn [handler_of]. unfold submit_disabled. rewrite Hsub, Ht. cbn [orb].
    split_and!; [done..|]. eexists. split; [reflexivity|]. by destruct st.
  - intros Es. rewrite Es in Hinv. destruct Hinv as [Hsub Ht].
    unfold step. cbn [handler_of]. unfold submit_disabled. rewrite Hsub, Ht, Es. cbn [orb].
    split_and!; [done..|]. eexists. split; [reflexivity|]. by destruct st.
Qed.

End Submission.

(** ** The error list *)

Lemma one_category_nil : one_category [].
Proof. exists ValidationFailed. constructor. Qed.

Lemma one_category_validation (fd : FormData) : one_category (newErrors_of fd).
Proof.
  assert (Forall (fun field => error_kind (required_message field) = Some ValidationFailed)
                 requiredFields) as Hkind by by apply (bool_decide_unpack _).
  exists ValidationFailed. rewrite newErrors_of_falsy, Forall_fmap, Forall_forall.
  intros field [_ Hf]%list_elem_of_filter. rewrite Forall_forall in Hkind. by apply Hkind.
Qed.

Lemma handleSubmit_errors st : errors (exec handleSubmit st) = newErrors_of (formData st).
Proof. rewrite handleSubmit_exec. by destruct (newErrors_of (formData st)). Qed.

Section ErrorList.

Context {number : Type} (Number_toString : number -> string).

Implicit Types (st : AppState) (f : File number).

Lemma one_category_import f : one_category (import_errors Number_toString f).
Proof.
  destruct (handleFileUpload_errors Number_toString f initialState)
    as [_ [-> | (msg & -> & Hmsg)]]; [apply one_category_nil|].
  unfold one_category. rewrite !elem_of_cons in Hmsg.
  destruct Hmsg as [-> | [-> | [-> | [-> | Hnil]]]]; [| | | |by apply elem_of_nil in Hnil].
  - exists MalformedInput. by constructor.
  - exists EmptyOrMalformed. by constructor.
  - exists EmptyOrMalformed. by constructor.
  - exists UnsupportedFormat. by constructor.
Qed.

Lemma reachable_one_category st : reachable Number_toString st -> one_category (errors st).
Proof.
  induction 1 as [|st ev st' _ IH Hstep]; [apply one_category_nil|].
  unfold step in Hstep. destruct (handler_of Number_toString ev st) as [h|] eqn:Hh; [|done].
  injection Hstep as <-.
  destruct ev as [k v | | selected | i | | | m |]; cbn [handler_of] in Hh.
  - case_bool_decide; [|done]. injection Hh as <-. by destruct st.
  - destruct (submit_disabled st); [done|]. injection Hh as <-.
    rewrite handleSubmit_errors. apply one_category_validation.
  - injection Hh as <-. destruct selected as [f|]; [|done].
    destruct (handleFileUpload_errors Number_toString f st) as [-> _].
    apply one_category_import.
  - destruct (timers st !! i) as [t|]; [|done]. injection Hh as <-.
    destruct st, t as [[] ?]; exact IH.
  - injection Hh as <-. apply one_category_nil.
  - injection Hh as <-. by destruct st.
  - injection Hh as <-. by destruct st.
  - injection Hh as <-. by destruct st.
Qed.

(** C6.  An import attempt and a submit attempt each set the error list to
    their own result: what the list held before plays no part, nothing is
    appended to it.  The result holds messages of one kind only, so the
    error list of every reachable state holds at most one kind of error. *)
Theorem error_list_is_replaced :
  (forall f st prior,
     errors (exec (handleFileUpload Number_toString (Some f)) (exec (setErrors prior) st))
     = import_errors Number_toString f) /\
  (forall st prior,
     errors (exec handleSubmit (exec (setErrors prior) st)) = newErrors_of (formData st)) /\
  (forall f, one_category (import_errors Number_toString f)) /\
  (forall fd, one_category (newErrors_of fd)) /\
  (forall st, reachable Number_toString st -> one_category (errors st)).
Proof.
  split_and!.
  - intros f st prior. apply handleFileUpload_errors.
  - intros st prior. by rewrite handleSubmit_errors.
  - apply one_category_import.
  - apply one_category_validation.
  - apply reachable_one_category.
Qed.

End ErrorList.

(** ** Concrete runs *)

Lemma after_submit_reachable : reachable integer_toString after_submit.
Proof.
  apply (reachable_step integer_toString after_import submit).
  - apply (reachable_step integer_toString initialState (select_file (Some complete_file)));
      [constructor | reflexivity].
  - vm_compute. reflexivity.
Defined.

Lemma submission_state_machine_witness :
  step integer_toString submit after_submit = None /\
  timers after_submit = [mkTimer resume_handleSubmit 5000] /\
  exists st', step integer_toString (timer_fires 0) after_submit = Some st' /\
              submitStatus st' = success.
Proof.
  refine (proj1 (proj2 (proj2 (submission_state_machine integer_toString after_submit
                                 after_submit_reachable))) _).
  vm_compute. reflexivity.
Defined.

Lemma error_list_is_replaced_witness : one_category (errors after_submit).
Proof.
  exact (proj2 (proj2 (proj2 (proj2 (error_list_is_replaced integer_toString))))
           after_submit after_submit_reachable).
Defined.

(** ** Further properties of the import *)

Section ImportedData.

Context {number : Type} (Number_toString : number -> string).

Implicit Types (f : File number) (st : AppState).
Implicit Types (record : list (string * JsValue number)).

Lemma mappedData_of_keys (source : JsValue number) m :
  mappedData_of Number_toString source = Normal m ->
  exists keys, Object_keys source = Normal keys.
Proof.
  rewrite mappedData_of_unfold. destruct (Object_keys source) as [keys|e]; [by eexists | done].
Qed.

Lemma stored_schema_key keys k : k ∈ schema_keys -> stored keys k <-> k ∈ keys.
Proof.
  intros Hk. unfold stored. split; [by intros [? _]|]. intros Hin.
  split_and!; [done | by apply schema_key_js_in | by apply schema_key_not_proto].
Qed.

Lemma mappedData_of_record_schema record m k :
  mappedData_of Number_toString (JObject record) = Normal m ->
  k ∈ schema_keys ->
  m !! k = normalized_field Number_toString record k.
Proof.
  intros Hm Hk.
  rewrite (mappedData_of_lookup _ (JObject record) (own_property_names record) m eq_refl Hm).
  unfold normalized_field. destruct (decide (k ∈ schema_keys)); [|done].
  destruct (assoc k record) as [v|] eqn:Ea.
  - rewrite decide_True by (apply stored_schema_key; [done | by eapply assoc_Some_name]).
    cbn [get]. by rewrite Ea.
  - rewrite decide_False; [done|]. intros [Hin _]. by apply assoc_None in Ea.
Qed.

Lemma mappedData_of_is_Some (source : JsValue number) keys m k :
  Object_keys source = Normal keys ->
  mappedData_of Number_toString source = Normal m ->
  is_Some (m !! k) <-> k ∈ schema_keys \/ stored keys k.
Proof.
  intros Hkeys Hm. rewrite (mappedData_of_lookup _ source keys m Hkeys Hm).
  destruct (decide (stored keys k)) as [Hs | Hs].
  - split; [by right|]. intros _.
    assert (convertible (get source k) = true) as Hc.
    { destruct Hs as (Hin & Hacc & _).
      apply (proj1 (mappedData_of_returns Number_toString source keys Hkeys)); [|done..].
      by exists m. }
    apply (ToString_returns Number_toString) in Hc as [s Hs'].
    unfold string_form. rewrite Hs'. by eexists.
  - rewrite initialData_lookup_is_Some. split; [by left | by intros [? | ?]].
Qed.

Lemma mappedData_of_well_keyed (source : JsValue number) m :
  mappedData_of Number_toString source = Normal m -> well_keyed m.
Proof.
  intros Hm. destruct (mappedData_of_keys _ _ Hm) as [keys Hkeys]. split.
  - intros k Hk. apply (mappedData_of_is_Some _ _ _ _ Hkeys Hm). by left.
  - intros k [Hk | (Hin & Hacc & Hne)]%(mappedData_of_is_Some _ _ _ _ Hkeys Hm); [by left|].
    apply js_in_initialData in Hacc as [? | ?]; [by left | by right].
Qed.

Lemma forEach_copy_skipped (source : JsValue number) keys acc :
  (forall k, k ∈ keys -> js_in k initialData = false) ->
  forEach (copy_key Number_toString source) keys acc = Normal acc.
Proof.
  induction keys as [|k0 keys IH]; intros Hkeys; [done|].
  rewrite forEach_cons, copy_key_skipped by (apply Hkeys; by left).
  apply IH. intros k Hk. apply Hkeys. by right.
Qed.

(** A successful JSON import, told by its empty error list. *)
Lemma json_import_success f st :
  extension_of (name f) = Some "json" ->
  errors (exec (handleFileUpload Number_toString (Some f)) st) = [] ->
  exists json, parsed_json f = Normal json /\
    mappedData_of Number_toString json
    = Normal (formData (exec (handleFileUpload Number_toString (Some f)) st)).
Proof.
  intros Hext. rewrite (handleFileUpload_json _ _ _ Hext).
  destruct (parsed_json f) as [json|e]; [|done].
  destruct (mappedData_of Number_toString json) as [m|e] eqn:Hm; [|done].
  intros _. by exists json.
Qed.

(** X2.  Whatever other keys the record has, a successful import gives every
    schema key the field of the normalization rule: the string form of the
    record's value, or the default when the record lacks the key.  This
    holds of a parsed JSON object and of row 0 of a CSV file. *)
Theorem import_sets_schema_fields f st :
  let st' := exec (handleFileUpload Number_toString (Some f)) st in
  (forall record k,
     extension_of (name f) = Some "json" ->
     parsed_json f = Normal (JObject record) ->
     errors st' = [] ->
     k ∈ schema_keys ->
     formData st' !! k = normalized_field Number_toString record k) /\
  (forall row rest k,
     extension_of (name f) = Some "csv" ->
     parsed_csv f = PapaComplete (row :: rest) ->
     k ∈ schema_keys ->
     formData st' !! k = normalized_field Number_toString (row_record row) k).
Proof.
  intros st'. subst st'. split.
  - intros record k Hext Hp Herr Hk.
    destruct (json_import_success f st Hext Herr) as (json & Hp' & Hm).
    rewrite Hp in Hp'. injection Hp' as <-.
    by apply mappedData_of_record_schema.
  - intros row rest k Hext Hp Hk.
    destruct (csv_import_of_row Number_toString f st row rest Hext Hp) as (_ & Hm & _).
    by apply mappedData_of_record_schema.
Qed.

(** X3.  A JSON import in which no key passes the [in] test resets the form
    to its defaults and reports no error; so does a top-level boolean,
    number, string or array, which has no such key at all. *)
Theorem import_without_accepted_key f st :
  extension_of (name f) = Some "json" ->
  let st' := exec (handleFileUpload Number_toString (Some f)) st in
  (forall record,
     parsed_json f = Normal (JObject record) ->
     (forall k, k ∈ own_property_names record ->
                (k ∉ schema_keys) /\ (k ∉ Object_prototype_names)) ->
     formData st' = initialData /\ errors st' = []) /\
  (forall json,
     parsed_json f = Normal json ->
     match json with
     | JBool _ | JNumber _ | JString _ | JArray _ => True
     | _ => False
     end ->
     formData st' = initialData /\ errors st' = []).
Proof.
  intros Hext st'. subst st'. rewrite (handleFileUpload_json _ _ _ Hext). split.
  - intros record -> Hkeys.
    rewrite mappedData_of_unfold. cbn [Object_keys mbind Completion_bind].
    rewrite forEach_copy_skipped; [done|].
    intros k Hk. destruct (Hkeys k Hk) as [Hs Hp]. apply not_true_is_false.
    intros [? | ?]%js_in_initialData; done.
  - intros json -> Hjson. destruct json as [| | b | n | s | elements | record]; try done.
    + by rewrite (mappedData_of_index_keys_returns _ (JString s) (String.length s) eq_refl).
    + by rewrite (mappedData_of_index_keys_returns _ (JArray elements) (length elements)
                    eq_refl).
Qed.

Lemma assoc_row_record (row : CsvRow) k c :
  NoDup row.*1 -> (k, c) ∈ row ->
  assoc k (row_record (number := number) row) = Some (cell_value c).
Proof.
  unfold row_record. induction row as [|[k0 c0] row IH]; intros Hnd Hin.
  - by apply elem_of_nil in Hin.
  - cbn [fmap list_fmap prod_map fst snd id assoc].
    cbn [fmap list_fmap fst] in Hnd. apply NoDup_cons in Hnd as [Hk0 Hnd].
    apply elem_of_cons in Hin as [[= -> ->] | Hin].
    + by rewrite String.eqb_refl.
    + destruct (String.eqb_spec k0 k) as [-> | Hne]; [|by apply IH].
      destruct Hk0. apply list_elem_of_fmap. by exists (k, c).
Qed.

Lemma assoc_row_record_None (row : CsvRow) k :
  k ∉ row.*1 -> assoc k (row_record (number := number) row) = None.
Proof.
  intros Hk. apply assoc_None. unfold row_record, own_property_names.
  rewrite <- list_fmap_compose. intros ([k0 c] & -> & Hin)%list_elem_of_fmap.
  apply Hk, list_elem_of_fmap. by exists (k0, c).
Qed.

(** X4.  A CSV import stores the text of a cell as it is, with no trimming
    and no conversion, under the schema key of its column; a schema key that
    is no column of the file is reset to its default. *)
Theorem csv_import_stores_cells_verbatim f st row rest k :
  extension_of (name f) = Some "csv" ->
  parsed_csv f = PapaComplete (row :: rest) ->
  NoDup row.*1 ->
  k ∈ schema_keys ->
  let st' := exec (handleFileUpload Number_toString (Some f)) st in
  (forall text, (k, Field text) ∈ row -> formData st' !! k = Some text) /\
  (k ∉ row.*1 -> formData st' !! k = initialData !! k).
Proof.
  intros Hext Hp Hnd Hk st'. subst st'.
  destruct (csv_import_of_row Number_toString f st row rest Hext Hp) as (_ & Hm & _).
  change (row_value row) with (JObject (row_record (number := number) row)) in Hm.
  rewrite (mappedData_of_record_schema _ _ _ Hm Hk). unfold normalized_field.
  destruct (decide (k ∈ schema_keys)); [|done]. split.
  - intros text Hin. by rewrite (assoc_row_record _ _ _ Hnd Hin).
  - intros Hn. by rewrite (assoc_row_record_None _ _ Hn).
Qed.

End ImportedData.

(** ** Further properties of validation and submission *)

Lemma newErrors_of_nil_iff (fd : FormData) :
  newErrors_of fd = [] <->
  forall field, field ∈ requiredFields -> exists v, fd !! field = Some v /\ v <> "".
Proof.
  rewrite newErrors_of_falsy. split.
  - intros Hnil%fmap_nil_inv field Hf.
    assert (falsy (fd !! field) <> true) as Hfalsy.
    { intros Hfalsy. eapply filter_nil_not_elem_of; [exact Hnil | exact Hfalsy | exact Hf]. }
    destruct (fd !! field) as [v|]; [|done]. exists v. split; [done|].
    intros ->. done.
  - intros Hall.
    replace (filter (fun field => falsy (fd !! field) = true) requiredFields) with (@nil string);
      [done|].
    symmetry. apply elem_of_nil_inv. intros field [Hfalsy Hf]%list_elem_of_filter.
    destruct (Hall field Hf) as (v & Hv & Hne). rewrite Hv in Hfalsy.
    cbn [falsy] in Hfalsy. by apply String.eqb_eq in Hfalsy.
Qed.

Lemma newErrors_of_ext (fd fd' : FormData) :
  (forall field, field ∈ requiredFields -> fd !! field = fd' !! field) ->
  newErrors_of fd = newErrors_of fd'.
Proof.
  intros Hagree. rewrite !newErrors_of_falsy. f_equal.
  unfold requiredFields in *.
  rewrite !filter_cons, !filter_nil, !Hagree by set_solver. done.
Qed.

(** X5.  Validation passes, and a submit goes on to send, exactly when each
    of the five required fields holds a non-empty string; the other fields
    of the form play no part in the result. *)
Theorem validation_passes_iff st :
  ((validateForm st).1 = Normal true <->
   forall field, field ∈ requiredFields ->
     exists v, formData st !! field = Some v /\ v <> "") /\
  (submitStatus (exec handleSubmit st) = sending <->
   submitStatus st = sending \/
   forall field, field ∈ requiredFields ->
     exists v, formData st !! field = Some v /\ v <> "") /\
  (forall st', (forall field, field ∈ requiredFields ->
                  formData st !! field = formData st' !! field) ->
     errors (exec validateForm st) = errors (exec validateForm st')).
Proof.
  split_and!.
  - destruct (validateForm_exec st) as (_ & _ & ->). rewrite <- newErrors_of_nil_iff.
    split; [intros [= H]; by apply bool_decide_eq_true in H|].
    intros H. by rewrite bool_decide_eq_true_2.
  - rewrite handleSubmit_exec, <- newErrors_of_nil_iff.
    destruct (newErrors_of (formData st)) as [|e errs]; cbn [submitStatus].
    + split; [by right | done].
    + split; [by left | by intros [? | ?]].
  - intros st' Hagree.
    destruct (validateForm_exec st) as (-> & _ & _).
    destruct (validateForm_exec st') as (-> & _ & _). by apply newErrors_of_ext.
Qed.

Lemma required_message_schema_inj a b :
  a ∈ requiredFields -> b ∈ schema_keys -> required_message a = required_message b -> a = b.
Proof.
  assert (Forall (fun a => Forall (fun b => required_message a = required_message b -> a = b)
                                  schema_keys) requiredFields) as H.
  { by apply (bool_decide_unpack _). }
  intros Ha Hb. rewrite Forall_forall in H. specialize (H a Ha).
  rewrite Forall_forall in H. by apply H.
Qed.

Lemma newErrors_of_insert (fd : FormData) n v :
  n ∈ schema_keys -> v <> "" ->
  newErrors_of (<[n := v]> fd)
  = filter (fun e => e <> required_message n) (newErrors_of fd).
Proof.
  intros Hn Hv. rewrite !newErrors_of_falsy.
  assert (Forall (fun field => field ∈ requiredFields) requiredFields) as Hall
    by by apply Forall_forall.
  revert Hall. generalize requiredFields at 2 3 4. intros l.
  induction l as [|x l IH]; intros Hall; [done|].
  apply Forall_cons in Hall as [Hx Hall]. specialize (IH Hall).
  destruct (decide (x = n)) as [-> | Hne].
  - rewrite (filter_cons_False _ n) by (rewrite lookup_insert_eq; cbn [falsy];
      by intros ?%String.eqb_eq).
    rewrite IH. destruct (decide (falsy (fd !! n) = true)) as [Hf | Hf].
    + rewrite (filter_cons_True _ n l Hf). cbn [fmap list_fmap].
      rewrite filter_cons_False; [done|]. by intros H; apply H.
    + by rewrite (filter_cons_False _ n l Hf).
  - rewrite (filter_cons (fun field => falsy (<[n:=v]> fd !! field) = true)).
    rewrite lookup_insert_ne by done.
    rewrite (filter_cons (fun field => falsy (fd !! field) = true)).
    destruct (decide (falsy (fd !! x) = true)) as [Hf | Hf]; [|done].
    cbn [fmap list_fmap]. rewrite IH.
    rewrite filter_cons_True; [done|].
    intros Heq. apply Hne. by apply required_message_schema_inj.
Qed.

(** X11.  Filling in a field with a non-empty value and submitting again
    gives the earlier validation messages without the one of that field:
    an edit never adds a message, and removes no message but its own. *)
Theorem edit_then_validate st n v :
  n ∈ schema_keys -> v <> "" ->
  errors (exec handleSubmit (exec (handleInputChange n v) st))
  = filter (fun e => e <> required_message n) (errors (exec handleSubmit st)) /\
  errors (exec (handleInputChange n v) st) = errors st.
Proof.
  intros Hn Hv. rewrite !handleSubmit_errors. split; [|by destruct st].
  replace (formData (exec (handleInputChange n v) st)) with (<[n := v]> (formData st))
    by by destruct st.
  by apply newErrors_of_insert.
Qed.

Lemma edit_then_validate_witness :
  errors (exec handleSubmit (exec (handleInputChange "temperature" "25") initialState))
  = [ "rainfall intensity is required"; "river level is required";
      "elevation is required"; "land use is required" ].
Proof.
  refine (eq_trans (proj1 (edit_then_validate initialState "temperature" "25" _ _)) _).
  - by apply (bool_decide_unpack _).
  - discriminate.
  - vm_compute. reflexivity.
Defined.

Lemma validation_passes_iff_witness :
  submitStatus (exec handleSubmit after_import) = sending.
Proof.
  apply (proj1 (proj2 (validation_passes_iff after_import))). right.
  intros field Hf. unfold requiredFields in Hf.
  repeat (apply elem_of_cons in Hf as [-> | Hf]); [..| by apply elem_of_nil in Hf];
    eexists; (split; [vm_compute; reflexivity | discriminate]).
Defined.

(** ** Field highlighting *)

Lemma highlighted_exists errs n :
  highlighted errs n = true <->
  exists e, e ∈ errs /\ includes (toLowerCase e) (replace_underscores n) = true.
Proof.
  unfold highlighted. rewrite existsb_exists. setoid_rewrite <- list_elem_of_In. done.
Qed.

Lemma required_message_includes field n :
  field ∈ requiredFields -> n ∈ schema_keys ->
  includes (toLowerCase (required_message field)) (replace_underscores n) = true <->
  n = field.
Proof.
  assert (Forall (fun field => Forall (fun n =>
            includes (toLowerCase (required_message field)) (replace_underscores n)
            = bool_decide (n = field)) schema_keys) requiredFields) as H.
  { by apply (bool_decide_unpack _). }
  intros Hf Hn. rewrite Forall_forall in H. specialize (H field Hf).
  rewrite Forall_forall in H. rewrite (H n Hn). apply bool_decide_eq_true.
Qed.

(** X7.  After a validation, an input of the form carries the error colours
    exactly when it is one of the five required fields and was found empty:
    no message lights up another field.  The messages of a failed import
    light up no field at all. *)
Theorem highlighting_is_exact (fd : FormData) n :
  n ∈ schema_keys ->
  (highlighted (newErrors_of fd) n = true <->
   n ∈ requiredFields /\ falsy (fd !! n) = true) /\
  (forall msg,
     msg ∈ [msg_invalid_json; msg_csv_empty; msg_csv_error; msg_unsupported] ->
     highlighted [msg] n = false) /\
  highlighted [] n = false.
Proof.
  intros Hn. split_and!.
  - rewrite highlighted_exists, newErrors_of_falsy. split.
    + intros (e & (field & -> & [Hfalsy Hf]%list_elem_of_filter)%list_elem_of_fmap & Hinc).
      apply required_message_includes in Hinc; [|done..]. by subst.
    + intros [Hf Hfalsy]. exists (required_message n). split.
      * apply list_elem_of_fmap. exists n. split; [done|]. by apply list_elem_of_filter.
      * by apply required_message_includes.
  - assert (Forall (fun msg => Forall (fun n => highlighted [msg] n = false) schema_keys)
              [msg_invalid_json; msg_csv_empty; msg_csv_error; msg_unsupported]) as H.
    { by apply (bool_decide_unpack _). }
    intros msg Hmsg. rewrite Forall_forall in H. specialize (H msg Hmsg).
    rewrite Forall_forall in H. by apply H.
  - reflexivity.
Qed.

Lemma highlighting_is_exact_witness :
  highlighted (newErrors_of initialData) "river_level" = true /\
  highlighted (newErrors_of initialData) "iot_river_level" = false.
Proof.
  split.
  - apply (proj1 (highlighting_is_exact initialData "river_level"
                    ltac:(by apply (bool_decide_unpack _)))).
    split; [by apply (bool_decide_unpack _) | by vm_compute].
  - apply not_true_is_false.
    intros [H _]%(proj1 (highlighting_is_exact initialData "iot_river_level"
                           ltac:(by apply (bool_decide_unpack _)))).
    revert H. by apply (bool_decide_unpack _).
Defined.

(** ** Invariants and compositions over the whole component *)

Lemma split_segments_without_sep sep s :
  Forall (fun seg => occurs sep seg = false) (split sep s).
Proof.
  induction s as [|c s IH]; cbn [split]; [by repeat constructor|].
  destruct (Ascii.eqb c sep) eqn:Ec; [by constructor|].
  destruct (split sep s) as [|seg segs]; [by repeat constructor; cbn; rewrite Ec|].
  apply Forall_cons in IH as [Hseg Hsegs]. constructor; [|done].
  cbn [occurs]. by rewrite Ec, Hseg.
Qed.

Lemma toLowerCase_unit_dot c : Ascii.eqb (toLowerCase_unit c) "." = Ascii.eqb c ".".
Proof. destruct c as [[] [] [] [] [] [] [] []]; reflexivity. Qed.

Lemma occurs_dot_toLowerCase s : occurs "." (toLowerCase s) = occurs "." s.
Proof.
  induction s as [|c s IH]; [done|]. cbn [toLowerCase occurs].
  by rewrite toLowerCase_unit_dot, IH.
Qed.

Lemma well_keyed_insert (fd : FormData) n v :
  n ∈ schema_keys -> well_keyed fd -> well_keyed (<[n := v]> fd).
Proof.
  intros Hn [Hall Honly]. split.
  - intros k Hk. rewrite lookup_insert. case_decide; [by eexists | by apply Hall].
  - intros k. rewrite lookup_insert. case_decide; [subst; by left | apply Honly].
Qed.

Lemma well_keyed_initialData : well_keyed initialData.
Proof.
  split; intros k.
  - by rewrite initialData_lookup_is_Some.
  - rewrite initialData_lookup_is_Some. by left.
Qed.

Section Component.

Context {number : Type} (Number_toString : number -> string).

Implicit Types (f : File number) (st : AppState) (ev : Event number).
Implicit Types (record : list (string * JsValue number)).

(** The two outcomes of an import. *)
Lemma handleFileUpload_outcome f st :
  let st' := exec (handleFileUpload Number_toString (Some f)) st in
  (exists msg cs, st' = refused st msg cs /\ length cs <= 1) \/
  (exists source c, mappedData_of Number_toString source = Normal (formData st') /\
                    st' = imported st (formData st') c).
Proof.
  intros st'. subst st'.
  destruct (decide (extension_of (name f) = Some "json")) as [Hj | Hj].
  - rewrite (handleFileUpload_json _ _ _ Hj).
    destruct (parsed_json f) as [json|e].
    + destruct (mappedData_of Number_toString json) as [m|e] eqn:Hm.
      * right. by exists json, call_JSON_parse.
      * left. exists msg_invalid_json, [call_JSON_parse]. split; [done | cbn; lia].
    + left. exists msg_invalid_json, [call_JSON_parse]. split; [done | cbn; lia].
  - destruct (decide (extension_of (name f) = Some "csv")) as [Hc | Hc].
    + rewrite (handleFileUpload_csv _ _ _ Hc).
      destruct (parsed_csv f) as [[|row rest]|].
      * left. exists msg_csv_empty, [call_Papa_parse]. split; [done | cbn; lia].
      * destruct (mappedData_of_row_returns Number_toString row) as [m Hm]. rewrite Hm.
        right. by exists (row_value row), call_Papa_parse.
      * left. exists msg_csv_error, [call_Papa_parse]. split; [done | cbn; lia].
    + rewrite (handleFileUpload_other _ _ _ Hj Hc). left.
      exists msg_unsupported, []. split; [done | cbn; lia].
Qed.

(** X10.  An import, whether it succeeds or fails, never touches the
    submission in progress nor the view settings: [isSubmitting],
    [submitStatus], the pending timers, the import mode and the preview flag
    are as before, and at most one parser call is made.  With no file
    selected the handler changes nothing at all. *)
Theorem import_leaves_submission_alone selected st :
  let st' := exec (handleFileUpload Number_toString selected) st in
  isSubmitting st' = isSubmitting st /\
  submitStatus st' = submitStatus st /\
  timers st' = timers st /\
  importMode st' = importMode st /\
  showPreview st' = showPreview st /\
  (exists cs, calls st' = (calls st ++ cs)%list /\ length cs <= 1) /\
  (selected = None -> st' = st).
Proof.
  intros st'. subst st'. destruct selected as [f|].
  - destruct (handleFileUpload_outcome f st)
      as [(msg & cs & -> & Hcs) | (source & c & _ & ->)].
    + split_and!; try done. by exists cs.
    + split_and!; try done. exists [c]. split; [done | cbn; lia].
  - split_and!; try done. exists []. split; [by rewrite app_nil_r | cbn; lia].
Qed.

Lemma step_formData ev st st' :
  step Number_toString ev st = Some st' ->
  formData st' = formData st \/
  (exists n v, n ∈ schema_keys /\ formData st' = <[n := v]> (formData st)) \/
  (exists source, mappedData_of Number_toString source = Normal (formData st')).
Proof.
  unfold step. destruct (handler_of Number_toString ev st) as [h|] eqn:Hh; [|done].
  intros [= <-].
  destruct ev as [k v | | selected | i | | | m |]; cbn [handler_of] in Hh.
  - case_bool_decide; [|done]. injection Hh as <-. right. left. exists k, v. by destruct st.
  - destruct (submit_disabled st); [done|]. injection Hh as <-. left.
    rewrite handleSubmit_exec. by destruct (newErrors_of (formData st)).
  - injection Hh as <-. destruct selected as [f|]; [|by left].
    destruct (handleFileUpload_outcome f st)
      as [(msg & cs & -> & _) | (source & c & Hm & _)]; [by left|].
    right. right. by exists source.
  - destruct (timers st !! i) as [t|]; [|done]. injection Hh as <-. left.
    by destruct st, t as [[] ?].
  - injection Hh as <-. left. by destruct st.
  - injection Hh as <-. left. by destruct st.
  - injection Hh as <-. left. by destruct st.
  - injection Hh as <-. left. by destruct st.
Qed.

(** X1.  In every reachable state the form data has all the fields of the
    schema: whatever is typed or imported, no field is ever missing.  Its
    only other own keys are names inherited from [Object.prototype] that an
    import let through, and never [__proto__]. *)
Theorem form_data_keeps_schema_keys st :
  reachable Number_toString st -> well_keyed (formData st).
Proof.
  induction 1 as [|st ev st' _ IH Hstep]; [apply well_keyed_initialData|].
  destruct (step_formData _ _ _ Hstep) as [-> | [(n & v & Hn & ->) | (source & Hm)]].
  - exact IH.
  - by apply well_keyed_insert.
  - by eapply mappedData_of_well_keyed.
Qed.

Lemma newErrors_of_mapped record m :
  mappedData_of Number_toString (JObject record) = Normal m ->
  newErrors_of m
  = required_message <$>
      filter (fun field => normalized_field Number_toString record field = Some "")
             requiredFields.
Proof.
  intros Hm. unfold newErrors_of.
  rewrite (foldl_push_filter _
             (fun field => normalized_field Number_toString record field = Some "")); [done|].
  intros field Hf%requiredFields_in_schema.
  rewrite <- (mappedData_of_record_schema _ _ _ _ Hm Hf).
  destruct (mappedData_of_well_keyed _ _ _ Hm) as [Hall _].
  destruct (Hall field Hf) as [v ->]. cbn [falsy]. rewrite String.eqb_eq.
  split; [by intros -> | by intros [= ->]].
Qed.

(** X6.  Submitting right after a successful import reports exactly the
    required fields to which the file gives the empty string or no value at
    all, in the fixed order; the submission starts when there is none. *)
Theorem import_then_submit f st :
  let st' := exec (handleFileUpload Number_toString (Some f)) st in
  (forall record,
     extension_of (name f) = Some "json" ->
     parsed_json f = Normal (JObject record) ->
     errors st' = [] ->
     errors (exec handleSubmit st')
     = required_message <$>
         filter (fun field => normalized_field Number_toString record field = Some "")
                requiredFields) /\
  (forall row rest,
     extension_of (name f) = Some "csv" ->
     parsed_csv f = PapaComplete (row :: rest) ->
     errors (exec handleSubmit st')
     = required_message <$>
         filter (fun field =>
                   normalized_field Number_toString (row_record row) field = Some "")
                requiredFields).
Proof.
  intros st'. subst st'. split.
  - intros record Hext Hp Herr. rewrite handleSubmit_errors.
    destruct (json_import_success Number_toString f st Hext Herr) as (json & Hp' & Hm).
    rewrite Hp in Hp'. injection Hp' as <-. by apply newErrors_of_mapped.
  - intros row rest Hext Hp. rewrite handleSubmit_errors.
    destruct (csv_import_of_row Number_toString f st row rest Hext Hp) as (_ & Hm & _).
    by apply newErrors_of_mapped.
Qed.

(** X8.  In every reachable state the submit button is enabled exactly when
    the status is idle, which is exactly when no timer is pending;
    [isSubmitting] holds exactly while sending; there is never more than
    one pending timer, and its delay is 5000 ms. *)
Theorem submit_enabled_iff_idle st :
  reachable Number_toString st ->
  (submit_disabled st = false <-> submitStatus st = idle) /\
  (timers st = [] <-> submitStatus st = idle) /\
  (isSubmitting st = true <-> submitStatus st = sending) /\
  length (timers st) <= 1 /\
  (forall t, t ∈ timers st -> delay t = 5000).
Proof.
  intros Hinv%reachable_submission_invariant.
  unfold submission_invariant, submit_disabled in *.
  destruct (submitStatus st); destruct Hinv as [-> ->]; cbn [orb length];
    (split_and!; [done | done | done | lia |]);
    intros t Ht; repeat (apply elem_of_cons in Ht as [-> | Ht]; [reflexivity|]);
    by apply elem_of_nil in Ht.
Qed.

(** X9.  From an idle reachable state a submit that passes validation runs
    the whole cycle: sending, then success when the first timer fires, then
    idle when the second fires, and the state it ends in is the one it
    started from with the error list emptied; the form keeps its data.  A
    submit that fails validation changes the error list and nothing else. *)
Theorem submission_round_trip st :
  reachable Number_toString st ->
  submitStatus st = idle ->
  (newErrors_of (formData st) = [] ->
   exists s1 s2 s3,
     step Number_toString submit st = Some s1 /\ submitStatus s1 = sending /\
     step Number_toString (timer_fires 0) s1 = Some s2 /\ submitStatus s2 = success /\
     step Number_toString (timer_fires 0) s2 = Some s3 /\
     s3 = exec (setErrors []) st) /\
  (newErrors_of (formData st) <> [] ->
   step Number_toString submit st
   = Some (exec (setErrors (newErrors_of (formData st))) st)).
Proof.
  intros Hinv%reachable_submission_invariant Es.
  unfold submission_invariant in Hinv. rewrite Es in Hinv. destruct Hinv as [Hsub Ht].
  destruct st as [fd sub status mode preview errs ts cs].
  cbn [submitStatus isSubmitting timers formData] in *. subst.
  unfold step. cbn [handler_of]. unfold submit_disabled.
  cbn [isSubmitting submitStatus orb]. rewrite handleSubmit_exec.
  cbn [formData isSubmitting submitStatus importMode showPreview errors timers calls].
  split.
  - intros ->. eexists _, _, _. split_and!; reflexivity.
  - intros Hne. by destruct (newErrors_of fd).
Qed.

(** X12.  The extension taken from a file name never holds a dot, and
    [pop] always finds one, so the optional call of [toLowerCase] is always
    made.  A name that ends in a dot, like the empty name, has the empty
    extension and is refused as unsupported without any parser call. *)
Theorem extension_edge_cases :
  (forall file_name, exists e,
     extension_of file_name = Some e /\ occurs "." e = false) /\
  (forall f st pre, name f = pre +:+ "." ->
     exec (handleFileUpload Number_toString (Some f)) st = refused st msg_unsupported []) /\
  (forall f st, name f = "" ->
     exec (handleFileUpload Number_toString (Some f)) st = refused st msg_unsupported []).
Proof.
  split_and!.
  - intros file_name. exists (toLowerCase (raw_extension file_name)).
    split; [apply extension_of_raw|]. rewrite occurs_dot_toLowerCase.
    unfold raw_extension, pop.
    pose proof (split_segments_without_sep "." file_name) as Hall.
    destruct (last (split "." file_name)) as [seg|] eqn:El; [|done].
    rewrite Forall_forall in Hall. apply Hall. by apply last_Some_elem_of.
  - intros f st pre Hname. apply handleFileUpload_other;
      rewrite Hname; unfold extension_of; by rewrite pop_split_after_last.
  - intros f st Hname. apply handleFileUpload_other; by rewrite Hname.
Qed.

End Component.

Lemma form_data_keeps_schema_keys_witness : well_keyed (formData after_submit).
Proof.
  exact (form_data_keeps_schema_keys integer_toString after_submit after_submit_reachable).
Defined.

Lemma submit_enabled_iff_idle_witness : submit_disabled after_submit = true.
Proof.
  apply not_false_iff_true.
  intros H%(proj1 (submit_enabled_iff_idle integer_toString after_submit
                     after_submit_reachable)).
  vm_compute in H. discriminate H.
Defined.

Lemma after_import_reachable : reachable integer_toString after_import.
Proof.
  apply (reachable_step integer_toString initialState (select_file (Some complete_file)));
    [constructor | reflexivity].
Defined.

Lemma submission_round_trip_witness :
  exists s1 s2 s3,
    step integer_toString submit after_import = Some s1 /\ submitStatus s1 = sending /\
    step integer_toString (timer_fires 0) s1 = Some s2 /\ submitStatus s2 = success /\
    step integer_toString (timer_fires 0) s2 = Some s3 /\
    s3 = exec (setErrors []) after_import.
Proof.
  apply (submission_round_trip integer_toString after_import after_import_reachable).
  - reflexivity.
  - vm_compute. reflexivity.
Defined.

Lemma import_then_submit_witness :
  errors (exec handleSubmit after_import) = [].
Proof.
  refine (eq_trans (proj1 (import_then_submit integer_toString complete_file initialState)
                      complete_record _ eq_refl _) _);
    vm_compute; reflexivity.
Defined.

Lemma import_sets_schema_fields_witness :
  formData after_import !! "temperature" = Some "25" /\
  formData after_import !! "past_flood" = Some "no".
Proof.
  split.
  - refine (eq_trans (proj1 (import_sets_schema_fields integer_toString complete_file
                               initialState) complete_record "temperature" _ eq_refl _ _) _);
      [vm_compute; reflexivity | vm_compute; reflexivity
       | by apply (bool_decide_unpack _) | vm_compute; reflexivity].
  - refine (eq_trans (proj1 (import_sets_schema_fields integer_toString complete_file
                               initialState) complete_record "past_flood" _ eq_refl _ _) _);
      [vm_compute; reflexivity | vm_compute; reflexivity
       | by apply (bool_decide_unpack _) | vm_compute; reflexivity].
Defined.

Lemma import_without_accepted_key_witness :
  let f := mkFile "levels.json" (Normal (JArray [JNumber 3%Z; JNumber 4%Z])) PapaError in
  let st' := exec (handleFileUpload integer_toString (Some f)) after_import in
  formData st' = initialData /\ errors st' = [].
Proof.
  cbv zeta.
  refine (proj2 (import_without_accepted_key integer_toString
                   (mkFile "levels.json" (Normal (JArray _)) PapaError) after_import _)
            _ eq_refl I).
  vm_compute. reflexivity.
Defined.

Lemma csv_import_stores_cells_verbatim_witness :
  let row := [("temperature", Field " 025 "); ("station", Field "north")] in
  let f := mkFile "gauge.csv" (Throw SyntaxError) (PapaComplete [row]) in
  formData (exec (handleFileUpload integer_toString (Some f)) initialState) !! "temperature"
  = Some " 025 ".
Proof.
  cbv zeta.
  refine (proj1 (csv_import_stores_cells_verbatim integer_toString
                   (mkFile "gauge.csv" (Throw SyntaxError) (PapaComplete [_])) initialState
                   _ [] "temperature" _ eq_refl _ _) " 025 " _).
  - vm_compute. reflexivity.
  - by apply (bool_decide_unpack _).
  - by apply (bool_decide_unpack _).
  - by left.
Defined.

Lemma import_leaves_submission_alone_witness :
  exec (handleFileUpload integer_toString None) after_submit = after_submit.
Proof.
  exact (proj2 (proj2 (proj2 (proj2 (proj2 (proj2
           (import_leaves_submission_alone integer_toString None after_submit))))))
           eq_refl).
Defined.

Lemma extension_edge_cases_witness :
  let f := mkFile "archive." (Normal (@JObject Z [])) (PapaComplete []) in
  exec (handleFileUpload integer_toString (Some f)) initialState
  = refused initialState msg_unsupported [].
Proof.
  cbv zeta.
  exact (proj1 (proj2 (extension_edge_cases integer_toString))
           (mkFile "archive." (Normal (JObject [])) (PapaComplete [])) initialState
           "archive" eq_refl).
Defined.
